(** * The delivery scheduler of insider-message-sender

    A shallow embedding of [internal/scheduler/scheduler.go] and of the
    three functions of [internal/repository/message_repo.go] it calls:
    [FetchUnsent], [MarkAsSent] and [MarkAsFailed].

    The scheduler talks to three collaborators (the messages table, the
    webhook endpoint, the Redis cache) and to the timer.  Their answers are
    not decided by the program, so they are read from an environment record;
    what the program does to them is written to an event list.  Every
    function of the source becomes a function in the monad [M], which threads
    the state of the table and of the cache and collects the events in
    program order. *)

From Stdlib Require Import ZArith List Bool Lia.
From stdpp Require Import base gmap strings list sorting.

Local Open Scope Z_scope.

(** ** Data model *)

(** [time.Time] and [time.Duration]: an instant and a span, both counted in
    nanoseconds.  A [Duration] is an [int64]. *)
Definition Time := Z.
Definition Duration := Z.

Definition wrap64 (z : Z) : Z := (z + 2 ^ 63) mod 2 ^ 64 - 2 ^ 63.

Definition Second : Duration := 1000000000.

(** [internal/constants/message_status.go] *)
Definition MessageStatusPending : string := "pending".
Definition MessageStatusSent : string := "sent".
Definition MessageStatusFailed : string := "failed".

(** [internal/model/message.go] *)
Record Message := {
  ID : Z;
  PhoneNumber : string;
  Content : string;
  Status : string;
  SentAt : Time
}.

(** A row of the [messages] table ([scripts/init.sql]), keyed by [id] in the
    table; [sent_at] is nullable. *)
Record Row := {
  phone_number : string;
  content : string;
  status : string;
  sent_at : option Time
}.

(** Go's [error]: [None] is [nil]. *)
Definition error := option string.

(** What [json.NewDecoder(resp.Body).Decode(&respData)] makes of a response
    body: an error, or the [messageId] field (empty when absent). *)
Inductive Decoded :=
| DecodeError
| MessageID (s : string).

(** The outcome of building and sending one request:
    [http.NewRequestWithContext] fails, [client.Do] fails, or a response
    comes back. *)
Inductive RoundTrip :=
| RequestError
| TransportError
| Response (StatusCode : Z) (Body : Decoded).

(** Which case of the [select] of the backoff fires. *)
Inductive SelectCase :=
| CtxDone
| TimerFired.

(** The lines the scheduler logs. *)
Inductive LogLine :=
| LogTooLong (id : Z) (len : Z)
| LogMarshalFailed (id : Z)
| LogGivingUp (id : Z) (attempts : Z)
| LogMarkFailedError (id : Z)
| LogRetryIn (id : Z) (attempt : Z) (delay : Duration)
| LogRetryCancelled (id : Z)
| LogRequestFailed (id : Z) (attempt : Z)
| LogSendFailed (id : Z) (attempt : Z)
| LogSent (id : Z) (attempt : Z)
| LogParseFailed (id : Z) (attempt : Z)
| LogMarkSentError (id : Z)
| LogCacheFailed (messageId : string)
| LogCached (messageId : string) (sentAt : string)
| LogRejected (id : Z) (attempt : Z) (code : Z)
| LogFetchError
| LogFetched (n : nat)
| LogStarted
| LogStopped
| LogContextCancelled.

(** What the program does to the outside, in program order. *)
Inductive Event :=
| Log (l : LogLine)
| Attempt (id : Z) (attempt : Z) (body : string) (r : RoundTrip)
| DrainBody (id : Z)
| Exec (newStatus : string) (id : Z) (ok : bool)
| CacheSet (key value : string) (ttl : Duration) (ok : bool)
| Select (delay : Duration) (c : SelectCase)
| Query (limit : Z) (ok : bool).

(** The state the program changes: the messages table and the cache. *)
Record World := {
  db : gmap Z Row;
  redis : gmap string string
}.

(** The environment of one delivery unit.  [roundTrip] is the outcome of the
    request of each attempt; a request cut short by the cancellation of the
    context is a [TransportError].  [ctxDone] tells, for the backoff that
    follows each attempt, whether [<-ctx.Done()] fires before the timer.
    The two writes and the cache may fail; [now] is the [time.Now()] of
    [sendMessageWithRetry] and [execNow] that of the repository. *)
Record Env := {
  jsonMarshal : string -> string -> option string;
  roundTrip : Z -> RoundTrip;
  ctxDone : Z -> bool;
  markSentFails : bool;
  markFailedFails : bool;
  cacheSetFails : bool;
  now : Time;
  execNow : Time;
  formatRFC3339 : Time -> string
}.

(** ** The monad: state of the world, list of events *)

Definition M (A : Type) : Type := World -> A * World * list Event.

Definition ret {A} (a : A) : M A := fun w => (a, w, []).

Definition bind {A B} (m : M A) (k : A -> M B) : M B :=
  fun w =>
    let '(a, w1, e1) := m w in
    let '(b, w2, e2) := k a w1 in
    (b, w2, e1 ++ e2).

Definition emit (e : Event) : M unit := fun w => (tt, w, [e]).

Definition log (l : LogLine) : M unit := emit (Log l).

Declare Scope prog_scope.
Delimit Scope prog_scope with prog.
Notation "x <- m ;; k" := (bind m (fun x => k))
  (at level 20, m at level 99, k at level 200, only parsing) : prog_scope.
Notation "m ;; k" := (bind m (fun _ => k))
  (at level 100, k at level 200, only parsing) : prog_scope.
Local Open Scope prog_scope.

Definition value {A} (r : A * World * list Event) : A := fst (fst r).
Definition world {A} (r : A * World * list Event) : World := snd (fst r).
Definition events {A} (r : A * World * list Event) : list Event := snd r.

(** ** [internal/repository/message_repo.go] *)

Definition setStatus (st : string) (t : Time) (r : Row) : Row :=
  {| phone_number := phone_number r; content := content r;
     status := st; sent_at := Some t |}.

(** [UPDATE messages SET status=$1, sent_at=$2 WHERE id=$3]: when the
    statement fails nothing is written; when no row has the id nothing is
    written either, without an error. *)
Definition exec (fails : bool) (st : string) (t : Time) (id : Z) : M error :=
  fun w =>
    if fails then (Some "exec", w, [Exec st id false])
    else (None, {| db := alter (setStatus st t) id (db w); redis := redis w |},
          [Exec st id true]).

Definition MarkAsSent (E : Env) (id : Z) : M error :=
  exec (markSentFails E) MessageStatusSent (execNow E) id.

Definition MarkAsFailed (E : Env) (id : Z) : M error :=
  exec (markFailedFails E) MessageStatusFailed (execNow E) id.

(** [cache.RedisClient.Set] *)
Definition cacheSet (E : Env) (key val : string) (ttl : Duration) : M error :=
  fun w =>
    if cacheSetFails E then (Some "redis", w, [CacheSet key val ttl false])
    else (None, {| db := db w; redis := <[key := val]> (redis w) |},
          [CacheSet key val ttl true]).

(** ** [internal/scheduler/scheduler.go]: the delivery unit *)

Definition maxMessageLength : Z := 160.
Definition redisKeyPrefix : string := "insider:msg:sent".
Definition maxRetries : Z := 3.
Definition baseDelay : Duration := 1 * Second.

Definition StatusOK : Z := 200.
Definition StatusCreated : Z := 201.
Definition StatusAccepted : Z := 202.

(** The test of line 193. *)
Definition accepted (code : Z) : bool :=
  (code =? StatusOK) || (code =? StatusCreated) || (code =? StatusAccepted).

(** [fmt.Sprintf("%s:%s", redisKeyPrefix, id)] *)
Definition cacheKey (messageId : string) : string :=
  redisKeyPrefix +:+ ":" +:+ messageId.

Definition sendMessageWithRetry (E : Env) (m : Message) (body : string)
    (attempt : Z) : M bool :=
  let r := roundTrip E attempt in
  emit (Attempt (ID m) attempt body r) ;;
  match r with
  | RequestError =>
      log (LogRequestFailed (ID m) (attempt + 1)) ;; ret false
  | TransportError =>
      log (LogSendFailed (ID m) (attempt + 1)) ;; ret false
  | Response code rbody =>
      if accepted code then
        log (LogSent (ID m) (attempt + 1)) ;;
        match rbody with
        | DecodeError =>
            log (LogParseFailed (ID m) (attempt + 1)) ;; ret false
        | MessageID messageId =>
            let sentAt := now E in
            err <- MarkAsSent E (ID m) ;;
            match err with
            | Some _ => log (LogMarkSentError (ID m))
            | None => ret tt
            end ;;
            (if negb (String.eqb messageId "") then
               let cacheVal := formatRFC3339 E sentAt in
               err <- cacheSet E (cacheKey messageId) cacheVal 0 ;;
               match err with
               | Some _ => log (LogCacheFailed messageId)
               | None => log (LogCached messageId cacheVal)
               end
             else ret tt) ;;
            ret true
        end
      else
        log (LogRejected (ID m) (attempt + 1) code) ;;
        emit (DrainBody (ID m)) ;;
        ret false
  end.

(** [baseDelay * time.Duration(1<<attempt)], in [int64]. *)
Definition backoffDelay (attempt : Z) : Duration :=
  wrap64 (baseDelay * wrap64 (Z.shiftl 1 attempt)).

(** The [for attempt := 0; attempt < maxRetries; attempt++] of
    [sendMessage].  [fuel] bounds the iterations; the loop test is the
    source's. *)
Fixpoint attemptLoop (E : Env) (m : Message) (body : string)
    (fuel : nat) (attempt : Z) : M unit :=
  match fuel with
  | O => ret tt
  | S fuel' =>
      if attempt <? maxRetries then
        success <- sendMessageWithRetry E m body attempt ;;
        if success : bool then ret tt
        else if attempt =? maxRetries - 1 then
          log (LogGivingUp (ID m) maxRetries) ;;
          err <- MarkAsFailed E (ID m) ;;
          match err with
          | Some _ => log (LogMarkFailedError (ID m))
          | None => ret tt
          end
        else
          let delay := backoffDelay attempt in
          log (LogRetryIn (ID m) (attempt + 1) delay) ;;
          if ctxDone E attempt then
            emit (Select delay CtxDone) ;;
            log (LogRetryCancelled (ID m))
          else
            emit (Select delay TimerFired) ;;
            attemptLoop E m body fuel' (attempt + 1)
      else ret tt
  end.

Definition sendMessage (E : Env) (m : Message) : M unit :=
  let len := Z.of_nat (String.length (Content m)) in
  if len >? maxMessageLength then
    log (LogTooLong (ID m) len)
  else
    match jsonMarshal E (PhoneNumber m) (Content m) with
    | None => log (LogMarshalFailed (ID m))
    | Some body => attemptLoop E m body (Z.to_nat maxRetries) 0
    end.

(** ** [internal/scheduler/scheduler.go]: the processing pass *)

(** The environment of one pass: whether the query fails, and the
    environment of the unit of each fetched message. *)
Record PassEnv := {
  fetchFails : bool;
  unitEnv : Z -> Env
}.

Definition isPending (kr : Z * Row) : bool :=
  String.eqb (status kr.2) MessageStatusPending.

Definition scanRow (kr : Z * Row) : Message :=
  {| ID := kr.1; PhoneNumber := phone_number kr.2; Content := content kr.2;
     Status := status kr.2; SentAt := 0 |}.

(** [FetchUnsent]: [SELECT ... WHERE status = 'pending' LIMIT $2].  The
    table has no order of its own; the model takes the rows in the order of
    the map. *)
Definition FetchUnsent (P : PassEnv) (limit : Z) : M (list Message * error) :=
  fun w =>
    if fetchFails P then ((nil, Some "query"), w, [Query limit false])
    else
      let rows := List.filter isPending (map_to_list (db w)) in
      ((List.map scanRow (take (Z.to_nat limit) rows), None), w,
       [Query limit true]).

Fixpoint forEach {A} (l : list A) (f : A -> M unit) : M unit :=
  match l with
  | [] => ret tt
  | x :: l' => f x ;; forEach l' f
  end.

(** [process].  The units are goroutines joined by the [WaitGroup]; the
    model runs them one after the other, in the order fetched. *)
Definition process (P : PassEnv) : M unit :=
  r <- FetchUnsent P 2 ;;
  match r.2 with
  | Some _ => log LogFetchError
  | None =>
      log (LogFetched (length r.1)) ;;
      forEach r.1 (fun m => sendMessage (unitEnv P (ID m)) m)
  end.

(** ** [internal/scheduler/scheduler.go]: lifecycle and loop *)

(** A [run] goroutine has been started and has not run its first pass, waits
    in its [select], or has returned. *)
Inductive LoopState :=
| Spawned
| Selecting
| Exited.

(** The scheduler and what runs around it.  [ctx] is the context of the
    current cycle ([s.ctx], with its [s.cancel]), an index into [contexts],
    which holds for every context created whether it has been cancelled.
    [loops] are the goroutines started by [go s.run()].  [passes] counts the
    passes made and indexes the environment; [journal] collects the
    events. *)
Record System := {
  isRunning : bool;
  ctx : option nat;
  contexts : list bool;
  loops : list LoopState;
  passes : nat;
  store : World;
  journal : list Event
}.

Definition NewScheduler (w : World) : System :=
  {| isRunning := false; ctx := None; contexts := []; loops := [];
     passes := 0; store := w; journal := [] |}.

Definition Start (s : System) : error * System :=
  if isRunning s then (None, s)
  else
    (None,
     {| isRunning := true;
        ctx := Some (length (contexts s));
        contexts := contexts s ++ [false];
        loops := loops s ++ [Spawned];
        passes := passes s;
        store := store s;
        journal := journal s ++ [Log LogStarted] |}).

(** [s.cancel()] *)
Definition cancel (s : System) : list bool :=
  match ctx s with
  | Some c => <[c := true]> (contexts s)
  | None => contexts s
  end.

Definition Stop (s : System) : error * System :=
  if negb (isRunning s) then (None, s)
  else
    (None,
     {| isRunning := false;
        ctx := ctx s;
        contexts := cancel s;
        loops := loops s;
        passes := passes s;
        store := store s;
        journal := journal s ++ [Log LogStopped] |}).

Definition IsRunning (s : System) : bool := isRunning s.

(** [<-s.ctx.Done()] is ready. *)
Definition ctxCancelled (s : System) : bool :=
  match ctx s with
  | Some c => default false (contexts s !! c)
  | None => false
  end.

(** One pass made by loop [i], which is then in state [st]. *)
Definition runPass (X : nat -> PassEnv) (i : nat) (st : LoopState)
    (s : System) : System :=
  let r := process (X (passes s)) (store s) in
  {| isRunning := isRunning s;
     ctx := ctx s;
     contexts := contexts s;
     loops := <[i := st]> (loops s);
     passes := S (passes s);
     store := world r;
     journal := journal s ++ events r |}.

(** What moves a [run] goroutine: it is scheduled for the first time, or one
    of the two cases of its [select] fires. *)
Inductive Signal :=
| Begin
| Tick
| Done.

(** [run], one step at a time: the first [s.process()], then per iteration
    of the [for] either the pass of [case <-ticker.C] or the return of
    [case <-s.ctx.Done()], which can only fire once the context read from
    [s.ctx] is cancelled. *)
Definition run (X : nat -> PassEnv) (i : nat) (sig : Signal)
    (s : System) : option System :=
  match loops s !! i, sig with
  | Some Spawned, Begin => Some (runPass X i Selecting s)
  | Some Selecting, Tick => Some (runPass X i Selecting s)
  | Some Selecting, Done =>
      if ctxCancelled s then
        Some {| isRunning := isRunning s;
                ctx := ctx s;
                contexts := contexts s;
                loops := <[i := Exited]> (loops s);
                passes := passes s;
                store := store s;
                journal := journal s ++ [Log LogContextCancelled] |}
      else None
  | _, _ => None
  end.

(** What can happen to the system: a call of [Start] or [Stop] from the
    control surface, or a step of one of the loops. *)
Inductive Action :=
| CallStart
| CallStop
| Loop (i : nat) (sig : Signal).

Definition step (X : nat -> PassEnv) (a : Action) (s : System)
    : option System :=
  match a with
  | CallStart => Some (Start s).2
  | CallStop => Some (Stop s).2
  | Loop i sig => run X i sig s
  end.

Fixpoint steps (X : nat -> PassEnv) (acts : list Action) (s : System)
    : option System :=
  match acts with
  | [] => Some s
  | a :: acts' =>
      match step X a s with
      | Some s' => steps X acts' s'
      | None => None
      end
  end.

(** ** What a list of events shows *)

Definition attemptOf (e : Event) : option (Z * RoundTrip) :=
  match e with
  | Attempt _ a _ r => Some (a, r)
  | _ => None
  end.

(** The delivery attempts made, with their outcomes. *)
Definition attemptsOf (evs : list Event) : list (Z * RoundTrip) :=
  omap attemptOf evs.

Definition waitOf (e : Event) : option Duration :=
  match e with
  | Select d TimerFired => Some d
  | _ => None
  end.

(** The backoff delays waited in full. *)
Definition waitsOf (evs : list Event) : list Duration := omap waitOf evs.

Definition writeOf (e : Event) : option (string * Z) :=
  match e with
  | Exec st id _ => Some (st, id)
  | _ => None
  end.

(** The status writes issued: the calls of [MarkAsSent] and
    [MarkAsFailed]. *)
Definition writesOf (evs : list Event) : list (string * Z) := omap writeOf evs.

Definition cacheWriteOf (e : Event) : option (string * string) :=
  match e with
  | CacheSet k v _ _ => Some (k, v)
  | _ => None
  end.

Definition cacheWritesOf (evs : list Event) : list (string * string) :=
  omap cacheWriteOf evs.

Definition isCancelled (e : Event) : bool :=
  match e with
  | Select _ CtxDone => true
  | _ => false
  end.

(** A backoff was cut short by the cancellation of the context. *)
Definition cancelled (evs : list Event) : bool := existsb isCancelled evs.

Definition markedAs (st : string) (id : Z) (evs : list Event) : bool :=
  existsb (fun w => String.eqb w.1 st && (w.2 =? id)) (writesOf evs).

Definition markedSent := markedAs MessageStatusSent.
Definition markedFailed := markedAs MessageStatusFailed.

(** An attempt succeeds when the response has an accepted code and its body
    decodes: the cases in which [sendMessageWithRetry] returns [true]. *)
Definition succeeds (r : RoundTrip) : bool :=
  match r with
  | Response code (MessageID _) => accepted code
  | _ => false
  end.

(** The tri-state outcome of the delivery client. *)
Definition isAccepted (r : RoundTrip) : bool :=
  match r with
  | Response code _ => accepted code
  | _ => false
  end.

Definition isRejected (r : RoundTrip) : bool :=
  match r with
  | Response code _ => negb (accepted code)
  | _ => false
  end.

Definition isTransportError (r : RoundTrip) : bool :=
  match r with
  | RequestError | TransportError => true
  | Response _ _ => false
  end.

Definition sum (l : list Z) : Z := fold_right Z.add 0 l.

(** ** The tail of a loop iteration

    What the body of the loop of [sendMessage] does after a failed attempt:
    the write of [failed] on the last attempt, the log line and the [select]
    otherwise. *)

Definition givingUp (E : Env) (m : Message) : list Event :=
  Log (LogGivingUp (ID m) maxRetries)
  :: Exec MessageStatusFailed (ID m) (negb (markFailedFails E))
  :: (if markFailedFails E then [Log (LogMarkFailedError (ID m))] else []).

Definition givenUp (E : Env) (m : Message) (w : World) : World :=
  if markFailedFails E then w
  else {| db := alter (setStatus MessageStatusFailed (execNow E)) (ID m) (db w);
          redis := redis w |}.

Definition retrying (m : Message) (a : Z) (c : SelectCase) : list Event :=
  [Log (LogRetryIn (ID m) (a + 1) (backoffDelay a)); Select (backoffDelay a) c].

(** ** The run of one delivery unit *)

Definition unitEvents (E : Env) (m : Message) (w : World) : list Event :=
  events (sendMessage E m w).

(** The status of the message in the table once its unit has returned. *)
Definition statusAfter (E : Env) (m : Message) (w : World) : option string :=
  status <$> db (world (sendMessage E m w)) !! ID m.

Definition someSucceeds (l : list (Z * RoundTrip)) : bool :=
  existsb (fun ar => succeeds ar.2) l.

Definition allFail (l : list (Z * RoundTrip)) : bool :=
  forallb (fun ar => negb (succeeds ar.2)) l.

Definition allRejectedOrErrored (l : list (Z * RoundTrip)) : bool :=
  forallb (fun ar => isRejected ar.2 || isTransportError ar.2) l.

(** ** Three sentences of the specification, read to the letter *)

(** Backoff: a message whose attempts all fail waits 1s, 2s and 4s, 7s in
    all. *)
Definition backoff_1_2_4 (E : Env) (m : Message) (w : World) : Prop :=
  allFail (attemptsOf (unitEvents E m w)) = true ->
  length (attemptsOf (unitEvents E m w)) = 3%nat ->
  waitsOf (unitEvents E m w) = [1 * Second; 2 * Second; 4 * Second]
  /\ sum (waitsOf (unitEvents E m w)) = 7 * Second.

(** Sent: the table holds [sent] for the message exactly when one of the
    attempts was accepted with a body that decodes. *)
Definition sent_iff_accepted (E : Env) (m : Message) (w : World) : Prop :=
  statusAfter E m w = Some MessageStatusSent
  <-> someSucceeds (attemptsOf (unitEvents E m w)) = true.


(** ** Sample inputs *)

Definition emptyWorld : World := {| db := ∅; redis := ∅ |}.

Definition hello : Message :=
  {| ID := 1; PhoneNumber := "+84901234567"; Content := "Hello from Insider!";
     Status := MessageStatusPending; SentAt := 0 |}.

Definition helloRow : Row :=
  {| phone_number := "+84901234567"; content := "Hello from Insider!";
     status := MessageStatusPending; sent_at := None |}.

Definition oneRow : World := {| db := {[ 1 := helloRow ]}; redis := ∅ |}.

(** An environment in which every request gets the same outcome and nothing
    else goes wrong.  Its [jsonMarshal] stands in for the JSON object of the
    two fields. *)
Definition always (r : RoundTrip) : Env :=
  {| jsonMarshal := fun to body => Some (to +:+ "|" +:+ body);
     roundTrip := fun _ => r;
     ctxDone := fun _ => false;
     markSentFails := false;
     markFailedFails := false;
     cacheSetFails := false;
     now := 1760859705000000000;
     execNow := 1760859705000000042;
     formatRFC3339 := fun _ => "2025-10-19T07:41:45Z" |}.

Definition withRoundTrip (f : Z -> RoundTrip) (E : Env) : Env :=
  {| jsonMarshal := jsonMarshal E; roundTrip := f; ctxDone := ctxDone E;
     markSentFails := markSentFails E; markFailedFails := markFailedFails E;
     cacheSetFails := cacheSetFails E; now := now E; execNow := execNow E;
     formatRFC3339 := formatRFC3339 E |}.

Definition withCtxDone (f : Z -> bool) (E : Env) : Env :=
  {| jsonMarshal := jsonMarshal E; roundTrip := roundTrip E; ctxDone := f;
     markSentFails := markSentFails E; markFailedFails := markFailedFails E;
     cacheSetFails := cacheSetFails E; now := now E; execNow := execNow E;
     formatRFC3339 := formatRFC3339 E |}.

Definition withMarkSentFails (b : bool) (E : Env) : Env :=
  {| jsonMarshal := jsonMarshal E; roundTrip := roundTrip E;
     ctxDone := ctxDone E;
     markSentFails := b; markFailedFails := markFailedFails E;
     cacheSetFails := cacheSetFails E; now := now E; execNow := execNow E;
     formatRFC3339 := formatRFC3339 E |}.

Definition withMarkFailedFails (b : bool) (E : Env) : Env :=
  {| jsonMarshal := jsonMarshal E; roundTrip := roundTrip E;
     ctxDone := ctxDone E;
     markSentFails := markSentFails E; markFailedFails := b;
     cacheSetFails := cacheSetFails E; now := now E; execNow := execNow E;
     formatRFC3339 := formatRFC3339 E |}.

Definition withJsonMarshal (f : string -> string -> option string) (E : Env)
    : Env :=
  {| jsonMarshal := f; roundTrip := roundTrip E; ctxDone := ctxDone E;
     markSentFails := markSentFails E; markFailedFails := markFailedFails E;
     cacheSetFails := cacheSetFails E; now := now E; execNow := execNow E;
     formatRFC3339 := formatRFC3339 E |}.

(** Bodies of 160 and of 161 bytes. *)
Definition text160 : string :=
  "0123456789012345678901234567890123456789012345678901234567890123456789012345678901234567890123456789012345678901234567890123456789012345678901234567890123456789".

Definition atLimit : Message :=
  {| ID := 2; PhoneNumber := "+84976543210"; Content := text160;
     Status := MessageStatusPending; SentAt := 0 |}.

Definition tooLong : Message :=
  {| ID := 3; PhoneNumber := "+84968889999"; Content := text160 +:+ "!";
     Status := MessageStatusPending; SentAt := 0 |}.

(** The database is down: every query fails. *)
Definition databaseDown (n : nat) : PassEnv :=
  {| fetchFails := true; unitEnv := fun _ => always TransportError |}.

(** The endpoint accepts every message. *)
Definition allAccepted (n : nat) : PassEnv :=
  {| fetchFails := false;
     unitEnv := fun _ => always (Response 200 (MessageID "abc")) |}.


(** A scheduler just started, its loop not yet scheduled. *)
Definition started : System := (Start (NewScheduler oneRow)).2.

(** ** [internal/constants/message_status.go] *)

Definition MessageStatusValues : list string :=
  [MessageStatusPending; MessageStatusSent; MessageStatusFailed].

Definition IsValidMessageStatus (st : string) : bool :=
  existsb (fun validStatus => String.eqb st validStatus) MessageStatusValues.

(** Every row of the table carries one of the three statuses. *)
Definition validRows (d : gmap Z Row) : Prop :=
  map_Forall (fun _ r => IsValidMessageStatus (status r) = true) d.

(** ** [internal/repository/message_repo.go]: the reads of the API *)

Definition hasStatus (st : string) (kr : Z * Row) : bool :=
  String.eqb (status kr.2) st.

(** [SELECT COUNT( * ) FROM messages WHERE status = $1] *)
Definition countStatus (st : string) (d : gmap Z Row) : Z :=
  Z.of_nat (length (List.filter (hasStatus st) (map_to_list d))).

(** [QueryRow(...).Scan(&total)]: on an error [total] keeps its zero. *)
Definition countQuery (fails : bool) (st : string) (w : World) : Z * error :=
  if fails then (0, Some "query") else (countStatus st (db w), None).

Definition CountSent (fails : bool) (w : World) : Z * error :=
  countQuery fails MessageStatusSent w.

Definition CountFailed (fails : bool) (w : World) : Z * error :=
  countQuery fails MessageStatusFailed w.

Definition CountPending (fails : bool) (w : World) : Z * error :=
  countQuery fails MessageStatusPending w.

(** [ORDER BY sent_at DESC]: the later instant first; PostgreSQL puts the
    rows without [sent_at] before all others in a descending order. *)
Definition newerFirst (x y : Z * Row) : Prop :=
  match sent_at x.2, sent_at y.2 with
  | None, _ => True
  | Some _, None => False
  | Some a, Some b => b <= a
  end.

#[global] Instance newerFirst_dec (x y : Z * Row) : Decision (newerFirst x y).
Proof.
  unfold newerFirst. destruct (sent_at x.2), (sent_at y.2); apply _.
Defined.

(** [rows.Scan] of the five columns: a [NULL] in [sent_at] cannot be stored
    in a [time.Time], and the scan fails. *)
Definition scanSentRow (kr : Z * Row) : option Message :=
  match sent_at kr.2 with
  | Some t =>
      Some {| ID := kr.1; PhoneNumber := phone_number kr.2;
              Content := content kr.2; Status := status kr.2; SentAt := t |}
  | None => None
  end.

(** The rows a query [WHERE status = $1 ORDER BY sent_at DESC] ranges
    over.  Rows with the same [sent_at] come in the order of the map. *)
Definition rowsByStatus (st : string) (d : gmap Z Row) : list (Z * Row) :=
  merge_sort newerFirst (List.filter (hasStatus st) (map_to_list d)).

(** [... LIMIT $2 OFFSET $3], scanned row by row.  PostgreSQL refuses a
    negative [LIMIT] or [OFFSET]. *)
Definition fetchPage (st : string) (fails : bool) (limit offset : Z)
    (w : World) : list Message * error :=
  if fails || (limit <? 0) || (offset <? 0) then (nil, Some "query")
  else
    let page :=
      take (Z.to_nat limit) (drop (Z.to_nat offset) (rowsByStatus st (db w))) in
    match mapM scanSentRow page with
    | Some msgs => (msgs, None)
    | None => (nil, Some "scan")
    end.

Definition FetchSent (fails : bool) (limit offset : Z) (w : World)
    : list Message * error :=
  fetchPage MessageStatusSent fails limit offset w.

Definition FetchFailed (fails : bool) (limit offset : Z) (w : World)
    : list Message * error :=
  fetchPage MessageStatusFailed fails limit offset w.

(** ** [internal/model/response.go] *)

Module SentMessageResponseData.
Record t := {
  ID : Z;
  PhoneNumber : string;
  Content : string;
  Status : string;
  SentAt : Time
}.
End SentMessageResponseData.

Module Pagination.
Record t := {
  Limit : Z;
  Offset : Z;
  Count : Z;
  Total : Z;
  HasMore : bool
}.
End Pagination.

Module SentMessagesResponse.
Record t := {
  Data : list SentMessageResponseData.t;
  Pagination : Pagination.t
}.
End SentMessagesResponse.

Module SchedulerActionResponse.
Record t := {
  Status : string;
  Message : string;
  Time : string
}.
End SchedulerActionResponse.

Module ErrorResponse.
Record t := {
  Status : string;
  Message : string;
  Time : string
}.
End ErrorResponse.

Module HealthResponse.
Record t := {
  Status : string;
  Timestamp : string;
  Services : gmap string string
}.
End HealthResponse.

(** What a handler answers with [c.JSON(code, obj)]. *)
Inductive Reply :=
| ReplyAction (code : Z) (r : SchedulerActionResponse.t)
| ReplyError (code : Z) (r : ErrorResponse.t)
| ReplyH (code : Z) (h : gmap string string)
| ReplyMessages (code : Z) (r : SentMessagesResponse.t)
| ReplyHealth (code : Z) (r : HealthResponse.t).


Definition StatusInternalServerError : Z := 500.
Definition StatusServiceUnavailable : Z := 503.

(** ** [internal/api/scheduler_handler.go] *)

Definition internalServerError (nowStr : string) : Reply :=
  ReplyError StatusInternalServerError
    {| ErrorResponse.Status := "error";
       ErrorResponse.Message := "Internal server error";
       ErrorResponse.Time := nowStr |}.

Definition StartScheduler (nowStr : string) (s : System) : Reply * System :=
  let r := Start s in
  match r.1 with
  | Some _ => (internalServerError nowStr, r.2)
  | None =>
      (ReplyAction StatusOK
         {| SchedulerActionResponse.Status := "success";
            SchedulerActionResponse.Message := "Scheduler started successfully";
            SchedulerActionResponse.Time := nowStr |}, r.2)
  end.

Definition StopScheduler (nowStr : string) (s : System) : Reply * System :=
  let r := Stop s in
  match r.1 with
  | Some _ => (internalServerError nowStr, r.2)
  | None =>
      (ReplyAction StatusOK
         {| SchedulerActionResponse.Status := "success";
            SchedulerActionResponse.Message := "Scheduler stopped successfully";
            SchedulerActionResponse.Time := nowStr |}, r.2)
  end.

(** ** [internal/api/health_handler.go] *)

(** [pingErr] is what [repo.Ping(ctx)] returns. *)
Definition HealthCheck (pingErr : error) (nowStr : string) (s : System)
    : Reply :=
  let status0 : string := "healthy" in
  let services0 : gmap string string := ∅ in
  let '(status1, services1) :=
    match pingErr with
    | Some e => ("unhealthy"%string,
                 <["database" := "unhealthy: " +:+ e]> services0)
    | None => (status0, <["database" := "healthy"]> services0)
    end in
  let services2 :=
    if IsRunning s then <["scheduler" := "running"]> services1
    else <["scheduler" := "stopped"]> services1 in
  let services3 := <["redis" := "healthy"]> services2 in
  let health :=
    {| HealthResponse.Status := status1;
       HealthResponse.Timestamp := nowStr;
       HealthResponse.Services := services3 |} in
  if String.eqb status1 "healthy" then ReplyHealth StatusOK health
  else ReplyHealth StatusServiceUnavailable health.

(** ** The handlers of the message lists *)

(** [c.DefaultQuery(key, defaultValue)] *)
Definition DefaultQuery (query : gmap string string) (key dflt : string)
    : string :=
  default dflt (query !! key).

Definition toResponseData (m : Message) : SentMessageResponseData.t :=
  {| SentMessageResponseData.ID := ID m;
     SentMessageResponseData.PhoneNumber := PhoneNumber m;
     SentMessageResponseData.Content := Content m;
     SentMessageResponseData.Status := Status m;
     SentMessageResponseData.SentAt := SentAt m |}.

Definition errorH (e : string) : gmap string string := {[ "error" := e ]}.

(** The body shared by [GetSentMessages] and [GetFailedMessages], which
    differ in the two repository functions they call.  [Atoi] is
    [strconv.Atoi]; the sum [offset+limit] is an [int]. *)
Definition listMessages (Atoi : string -> option Z)
    (fetch : Z -> Z -> list Message * error) (count : Z * error)
    (query : gmap string string) : Reply :=
  let limit :=
    match Atoi (DefaultQuery query "limit" "10") with
    | Some n => if n <=? 0 then 10 else n
    | None => 10
    end in
  let offset :=
    match Atoi (DefaultQuery query "offset" "0") with
    | Some n => if n <? 0 then 0 else n
    | None => 0
    end in
  match fetch limit offset with
  | (_, Some e) => ReplyH StatusInternalServerError (errorH e)
  | (msgs, None) =>
      match count with
      | (_, Some e) => ReplyH StatusInternalServerError (errorH e)
      | (total, None) =>
          ReplyMessages StatusOK
            {| SentMessagesResponse.Data := List.map toResponseData msgs;
               SentMessagesResponse.Pagination :=
                 {| Pagination.Limit := limit;
                    Pagination.Offset := offset;
                    Pagination.Count := Z.of_nat (length msgs);
                    Pagination.Total := total;
                    Pagination.HasMore := wrap64 (offset + limit) <? total |} |}
      end
  end.

Definition GetSentMessages (Atoi : string -> option Z)
    (fetchFails countFails : bool) (query : gmap string string) (w : World)
    : Reply :=
  listMessages Atoi (fun limit offset => FetchSent fetchFails limit offset w)
    (CountSent countFails w) query.

Definition GetFailedMessages (Atoi : string -> option Z)
    (fetchFails countFails : bool) (query : gmap string string) (w : World)
    : Reply :=
  listMessages Atoi (fun limit offset => FetchFailed fetchFails limit offset w)
    (CountFailed countFails w) query.

(** ** [internal/config/config.go] *)

Record Config := {
  DBHost : string;
  DBPort : string;
  DBUser : string;
  DBPassword : string;
  DBName : string;
  RedisHost : string;
  WebhookURL : string;
  SendInterval : Duration;
  ServerPort : string
}.

(** How the start of the process ends: with a value, in [log.Fatalf], or in
    a [panic]. *)
Inductive Startup (A : Type) :=
| Ready (a : A)
| Fatal (msg : string)
| Panic (msg : string).

Arguments Ready {A} a.
Arguments Fatal {A} msg.
Arguments Panic {A} msg.

Definition andThen {A B} (x : Startup A) (k : A -> Startup B) : Startup B :=
  match x with
  | Ready a => k a
  | Fatal msg => Fatal msg
  | Panic msg => Panic msg
  end.

(** [os.Getenv]: the empty string when the variable is not set. *)
Definition Getenv (env : gmap string string) (key : string) : string :=
  default "" (env !! key).

Definition getEnv (env : gmap string string) (key : string) (required : bool)
    (fallback : string) : Startup string :=
  let v := Getenv env key in
  if negb (String.eqb v "") then Ready v
  else if negb required then Ready fallback
  else Panic (key +:+ " is required").

(** [Load], on the environment as [godotenv.Load] leaves it.
    [ParseDuration] is [time.ParseDuration]; the fields of the literal are
    evaluated in the order written. *)
Definition Load (ParseDuration : string -> option Duration)
    (env : gmap string string) : Startup Config :=
  andThen (getEnv env "SEND_INTERVAL" false "2m") (fun text =>
  match ParseDuration text with
  | None => Fatal "Invalid SEND_INTERVAL"
  | Some interval =>
      andThen (getEnv env "DB_HOST" true "") (fun dbHost =>
      andThen (getEnv env "DB_PORT" false "5432") (fun dbPort =>
      andThen (getEnv env "DB_USER" true "") (fun dbUser =>
      andThen (getEnv env "DB_PASSWORD" true "") (fun dbPassword =>
      andThen (getEnv env "DB_NAME" true "") (fun dbName =>
      andThen (getEnv env "REDIS_ADDR" true "") (fun redisHost =>
      andThen (getEnv env "WEBHOOK_URL" true "") (fun webhookURL =>
      andThen (getEnv env "SERVER_PORT" false "8080") (fun serverPort =>
      Ready {| DBHost := dbHost; DBPort := dbPort; DBUser := dbUser;
               DBPassword := dbPassword; DBName := dbName;
               RedisHost := redisHost; WebhookURL := webhookURL;
               SendInterval := interval; ServerPort := serverPort |}))))))))
  end).

(** ** Invariants of the lifecycle *)

(** What holds of every state reached from [NewScheduler]: a context and a
    loop are created together; the context of the cycle is the last one
    created; it is live exactly while the scheduler runs, and every other
    context has been cancelled. *)
Definition lifecycle (s : System) : Prop :=
  length (loops s) = length (contexts s)
  /\ match ctx s with
     | None => contexts s = [] /\ isRunning s = false
     | Some c =>
         S c = length (contexts s)
         /\ contexts s !! c = Some (negb (isRunning s))
         /\ forall c', (c' < c)%nat -> contexts s !! c' = Some true
     end.

(** A scheduler started and stopped, whose loop has returned. *)
Definition returned : System :=
  default (NewScheduler oneRow)
    (steps databaseDown [CallStart; Loop 0 Begin; CallStop; Loop 0 Done]
       (NewScheduler oneRow)).

Definition b2z (b : bool) : Z := if b then 1 else 0.

(** A table with a pending, a sent and a failed row, and two sent rows
    more. *)
Definition sentRow (t : Time) : Row :=
  {| phone_number := "+84976543210"; content := "Your code is 1234";
     status := MessageStatusSent; sent_at := Some t |}.

Definition failedRow : Row :=
  {| phone_number := "+84968889999"; content := "Reminder: meeting at 3PM";
     status := MessageStatusFailed; sent_at := Some 30 |}.

Definition mixedRows : World :=
  {| db := {[ 1 := helloRow; 2 := sentRow 20; 3 := failedRow;
              4 := sentRow 40; 5 := sentRow 10 ]};
     redis := ∅ |}.

(** What a page of the list of the rows with status [st] must be for the
    table of [w]: a positive limit, an offset that is not negative, as many
    entries as counted, no more than the limit, the total of the table, and
    [has_more] exactly when rows remain behind the page, as long as
    [offset+limit] fits an [int]. *)
Definition consistentPage (st : string) (w : World)
    (r : SentMessagesResponse.t) : Prop :=
  let p := SentMessagesResponse.Pagination r in
  0 < Pagination.Limit p
  /\ 0 <= Pagination.Offset p
  /\ Pagination.Count p
     = Z.of_nat (length (SentMessagesResponse.Data r))
  /\ Pagination.Count p <= Pagination.Limit p
  /\ Pagination.Total p = countStatus st (db w)
  /\ Pagination.Count p
     = Z.max 0 (Z.min (Pagination.Limit p)
                  (Pagination.Total p - Pagination.Offset p))
  /\ (Pagination.Offset p + Pagination.Limit p < 2 ^ 63 ->
      (Pagination.HasMore p = true
       <-> Pagination.Offset p + Pagination.Count p < Pagination.Total p)).

(** A reader of decimal numbers with an optional sign, within the range of
    an [int]: a stand-in for [strconv.Atoi] in the samples. *)
Fixpoint digits (s : string) (acc : Z) : option Z :=
  match s with
  | EmptyString => Some acc
  | String c s' =>
      let n := Z.of_nat (Ascii.nat_of_ascii c) in
      if (48 <=? n) && (n <=? 57) then digits s' (10 * acc + (n - 48))
      else None
  end.

Definition inInt (n : Z) : option Z :=
  if (- 2 ^ 63 <=? n) && (n <? 2 ^ 63) then Some n else None.

Definition decimal (s : string) : option Z :=
  match s with
  | EmptyString => None
  | String c s' =>
      if String.eqb (String c "") "-" then
        if String.eqb s' "" then None else n ← digits s' 0; inInt (- n)
      else if String.eqb (String c "") "+" then
        if String.eqb s' "" then None else n ← digits s' 0; inInt n
      else n ← digits s 0; inInt n
  end.

(** The list a reply carries; an empty page when it carries none. *)
Definition pageOf (r : Reply) : SentMessagesResponse.t :=
  match r with
  | ReplyMessages _ p => p
  | _ =>
      {| SentMessagesResponse.Data := [];
         SentMessagesResponse.Pagination :=
           {| Pagination.Limit := 0; Pagination.Offset := 0;
              Pagination.Count := 0; Pagination.Total := 0;
              Pagination.HasMore := false |} |}
  end.


Definition hugePage : gmap string string :=
  {[ "limit" := "9223372036854775807"; "offset" := "1" ]}%string.

(** What [getEnv] makes of a variable that is not required: its value, or
    the fallback when it is unset or empty. *)
Definition settingOr (env : gmap string string) (key fallback : string)
    : string :=
  if String.eqb (Getenv env key) "" then fallback else Getenv env key.

Definition sampleEnv : gmap string string :=
  {[ "DB_HOST" := "localhost"; "DB_USER" := "insider";
     "DB_PASSWORD" := "secret"; "DB_NAME" := "messages";
     "REDIS_ADDR" := "localhost:6379";
     "WEBHOOK_URL" := "https://webhook.site/test";
     "SERVER_PORT" := "" ]}%string.

(** A stand-in for [time.ParseDuration] that knows two spellings. *)
Definition sampleParseDuration (s : string) : option Duration :=
  if String.eqb s "2m" then Some (120 * Second)
  else if String.eqb s "30s" then Some (30 * Second)
  else None.

Definition attemptIdOf (e : Event) : option Z :=
  match e with
  | Attempt id _ _ _ => Some id
  | _ => None
  end.

(** The messages the delivery attempts were made for. *)
Definition attemptIds (evs : list Event) : list Z := omap attemptIdOf evs.

(** ** Reading event lists *)

Lemma value_of {A} (a : A) (w : World) (e : list Event) : value (a, w, e) = a.
Proof. reflexivity. Qed.

Lemma world_of {A} (a : A) (w : World) (e : list Event) : world (a, w, e) = w.
Proof. reflexivity. Qed.

Lemma events_of {A} (a : A) (w : World) (e : list Event) :
  events (a, w, e) = e.
Proof. reflexivity. Qed.

Lemma attemptsOf_app (e1 e2 : list Event) :
  attemptsOf (e1 ++ e2) = attemptsOf e1 ++ attemptsOf e2.
Proof. apply omap_app. Qed.

Lemma waitsOf_app (e1 e2 : list Event) :
  waitsOf (e1 ++ e2) = waitsOf e1 ++ waitsOf e2.
Proof. apply omap_app. Qed.

Lemma writesOf_app (e1 e2 : list Event) :
  writesOf (e1 ++ e2) = writesOf e1 ++ writesOf e2.
Proof. apply omap_app. Qed.

Lemma cacheWritesOf_app (e1 e2 : list Event) :
  cacheWritesOf (e1 ++ e2) = cacheWritesOf e1 ++ cacheWritesOf e2.
Proof. apply omap_app. Qed.

Lemma cancelled_app (e1 e2 : list Event) :
  cancelled (e1 ++ e2) = cancelled e1 || cancelled e2.
Proof. apply existsb_app. Qed.

Lemma markedAs_app (st : string) (id : Z) (e1 e2 : list Event) :
  markedAs st id (e1 ++ e2) = markedAs st id e1 || markedAs st id e2.
Proof. unfold markedAs. rewrite writesOf_app. apply existsb_app. Qed.

Lemma markedAs_writes (st : string) (id : Z) (evs : list Event) (st' : string) :
  writesOf evs = [(st', id)] -> markedAs st id evs = String.eqb st' st.
Proof.
  intros H. unfold markedAs. rewrite H. cbn.
  rewrite Z.eqb_refl. now rewrite andb_true_r, orb_false_r.
Qed.

Lemma markedAs_no_writes (st : string) (id : Z) (evs : list Event) :
  writesOf evs = [] -> markedAs st id evs = false.
Proof. intros H. unfold markedAs. now rewrite H. Qed.

(** ** One attempt *)

Section Attempt.

Variables (E : Env) (m : Message) (body : string) (a : Z) (w : World).

Let r := sendMessageWithRetry E m body a w.

Ltac attempt_cases :=
  subst r; unfold sendMessageWithRetry, bind, emit, log, ret, MarkAsSent,
    cacheSet, exec, succeeds, value, world, events;
  destruct (roundTrip E a) as [| |code [|mid]]; try reflexivity;
  destruct (accepted code); try reflexivity;
  destruct (markSentFails E); cbn;
  destruct (String.eqb mid ""); cbn; try reflexivity;
  destruct (cacheSetFails E); reflexivity.

Lemma attempt_value : value r = succeeds (roundTrip E a).
Proof. attempt_cases. Qed.

Lemma attempt_attempts : attemptsOf (events r) = [(a, roundTrip E a)].
Proof. attempt_cases. Qed.

Lemma attempt_waits : waitsOf (events r) = [].
Proof. attempt_cases. Qed.

Lemma attempt_cancelled : cancelled (events r) = false.
Proof. attempt_cases. Qed.

Lemma attempt_writes :
  writesOf (events r) =
  if succeeds (roundTrip E a) then [(MessageStatusSent, ID m)] else [].
Proof. attempt_cases. Qed.

Lemma attempt_db :
  db (world r) =
  if succeeds (roundTrip E a) && negb (markSentFails E)
  then alter (setStatus MessageStatusSent (execNow E)) (ID m) (db w)
  else db w.
Proof. attempt_cases. Qed.

Lemma attempt_cache :
  cacheWritesOf (events r) =
  match roundTrip E a with
  | Response code (MessageID mid) =>
      if accepted code && negb (String.eqb mid "")
      then [(cacheKey mid, formatRFC3339 E (now E))]
      else []
  | _ => []
  end.
Proof. attempt_cases. Qed.

Lemma attempt_failed_world : succeeds (roundTrip E a) = false -> world r = w.
Proof.
  subst r; unfold sendMessageWithRetry, bind, emit, log, ret, succeeds,
    world.
  destruct (roundTrip E a) as [| |code [|mid]]; try reflexivity;
    destruct (accepted code); try reflexivity; discriminate.
Qed.

End Attempt.

(** ** The attempt loop, iteration by iteration *)

Section Loop.

Variables (E : Env) (m : Message) (body : string) (w : World).

Let att (a : Z) := sendMessageWithRetry E m body a w.
Let ok (a : Z) := succeeds (roundTrip E a).

Lemma attemptLoop_step (fuel : nat) (a : Z) :
  a < maxRetries ->
  attemptLoop E m body (S fuel) a w =
  if ok a then (tt, world (att a), events (att a))
  else if a =? maxRetries - 1 then
    (tt, givenUp E m w, events (att a) ++ givingUp E m)
  else if ctxDone E a then
    (tt, w, events (att a) ++ retrying m a CtxDone
              ++ [Log (LogRetryCancelled (ID m))])
  else
    (tt, world (attemptLoop E m body fuel (a + 1) w),
     events (att a) ++ retrying m a TimerFired
       ++ events (attemptLoop E m body fuel (a + 1) w)).
Proof.
  intros Ha. apply Z.ltb_lt in Ha.
  cbn [attemptLoop]. rewrite Ha. unfold bind at 1.
  pose proof (attempt_value E m body a w) as V.
  pose proof (attempt_failed_world E m body a w) as W.
  subst att ok. cbv beta.
  destruct (sendMessageWithRetry E m body a w) as [[b w1] e1].
  unfold value, world, events in *. cbn [fst snd] in *. subst b.
  destruct (succeeds (roundTrip E a)).
  - cbn. now rewrite app_nil_r.
  - rewrite (W eq_refl).
    destruct (a =? maxRetries - 1).
    + unfold givingUp, givenUp, bind, log, emit, ret, MarkAsFailed, exec.
      destruct (markFailedFails E); reflexivity.
    + unfold retrying, bind, log, emit.
      destruct (ctxDone E a); [reflexivity|].
      destruct (attemptLoop E m body fuel (a + 1) w) as [[[] w2] e2].
      reflexivity.
Qed.

(** The whole loop of [sendMessage], from attempt 0. *)
Lemma attemptLoop_run :
  attemptLoop E m body (Z.to_nat maxRetries) 0 w =
  if ok 0 then (tt, world (att 0), events (att 0))
  else if ctxDone E 0 then
    (tt, w, events (att 0) ++ retrying m 0 CtxDone
              ++ [Log (LogRetryCancelled (ID m))])
  else if ok 1 then
    (tt, world (att 1),
     events (att 0) ++ retrying m 0 TimerFired ++ events (att 1))
  else if ctxDone E 1 then
    (tt, w, events (att 0) ++ retrying m 0 TimerFired
              ++ events (att 1) ++ retrying m 1 CtxDone
              ++ [Log (LogRetryCancelled (ID m))])
  else if ok 2 then
    (tt, world (att 2),
     events (att 0) ++ retrying m 0 TimerFired
       ++ events (att 1) ++ retrying m 1 TimerFired ++ events (att 2))
  else
    (tt, givenUp E m w,
     events (att 0) ++ retrying m 0 TimerFired
       ++ events (att 1) ++ retrying m 1 TimerFired
       ++ events (att 2) ++ givingUp E m).
Proof.
  change (Z.to_nat maxRetries) with 3%nat.
  rewrite (attemptLoop_step 2 0) by reflexivity.
  change (0 =? maxRetries - 1) with false. change (0 + 1) with 1.
  rewrite (attemptLoop_step 1 1) by reflexivity.
  change (1 =? maxRetries - 1) with false. change (1 + 1) with 2.
  rewrite (attemptLoop_step 0 2) by reflexivity.
  change (2 =? maxRetries - 1) with true.
  unfold world, events. cbn [fst snd].
  destruct (ok 0), (ctxDone E 0), (ok 1), (ctxDone E 1), (ok 2);
    reflexivity.
Qed.

(** The fuel never cuts the loop short: once it covers the attempts left,
    more of it changes nothing. *)
Lemma attemptLoop_fuel (n fuel : nat) (a : Z) :
  a + Z.of_nat n = maxRetries -> (n <= fuel)%nat ->
  attemptLoop E m body fuel a w = attemptLoop E m body n a w.
Proof.
  revert fuel a. induction n as [|n IH]; intros fuel a Ha Hn.
  - assert ((a <? maxRetries) = false) as Hge by (apply Z.ltb_ge; lia).
    destruct fuel; cbn [attemptLoop]; [reflexivity | now rewrite Hge].
  - destruct fuel as [|fuel]; [lia|].
    rewrite !attemptLoop_step by lia.
    rewrite (IH fuel (a + 1)) by lia. reflexivity.
Qed.

End Loop.

(** ** The pieces between the attempts *)

Lemma retrying_attempts m a c : attemptsOf (retrying m a c) = [].
Proof. reflexivity. Qed.

Lemma retrying_writes m a c : writesOf (retrying m a c) = [].
Proof. reflexivity. Qed.

Lemma retrying_cache m a c : cacheWritesOf (retrying m a c) = [].
Proof. reflexivity. Qed.

Lemma retrying_waits_fired m a :
  waitsOf (retrying m a TimerFired) = [backoffDelay a].
Proof. reflexivity. Qed.

Lemma retrying_waits_done m a : waitsOf (retrying m a CtxDone) = [].
Proof. reflexivity. Qed.

Lemma retrying_cancelled_fired m a : cancelled (retrying m a TimerFired) = false.
Proof. reflexivity. Qed.

Lemma retrying_cancelled_done m a : cancelled (retrying m a CtxDone) = true.
Proof. reflexivity. Qed.

Lemma givingUp_attempts E m : attemptsOf (givingUp E m) = [].
Proof. unfold givingUp. now destruct (markFailedFails E). Qed.

Lemma givingUp_waits E m : waitsOf (givingUp E m) = [].
Proof. unfold givingUp. now destruct (markFailedFails E). Qed.

Lemma givingUp_cache E m : cacheWritesOf (givingUp E m) = [].
Proof. unfold givingUp. now destruct (markFailedFails E). Qed.

Lemma givingUp_cancelled E m : cancelled (givingUp E m) = false.
Proof. unfold givingUp. now destruct (markFailedFails E). Qed.

Lemma givingUp_writes E m :
  writesOf (givingUp E m) = [(MessageStatusFailed, ID m)].
Proof. unfold givingUp. now destruct (markFailedFails E). Qed.

Lemma givenUp_db E m w :
  db (givenUp E m w) =
  if markFailedFails E then db w
  else alter (setStatus MessageStatusFailed (execNow E)) (ID m) (db w).
Proof. unfold givenUp. now destruct (markFailedFails E). Qed.

Create Rewrite HintDb run.

#[local] Hint Rewrite
  @value_of @world_of @events_of
  attemptsOf_app waitsOf_app writesOf_app cacheWritesOf_app cancelled_app
  attempt_attempts attempt_waits attempt_writes attempt_cancelled
  retrying_attempts retrying_writes retrying_cache
  retrying_waits_fired retrying_waits_done
  retrying_cancelled_fired retrying_cancelled_done
  givingUp_attempts givingUp_waits givingUp_cache givingUp_cancelled
  givingUp_writes app_nil_r app_nil_l : run.

(** Splits the run of a unit into its cases: the message is too long, the
    payload does not marshal, or the loop ends in one of six ways. *)
Ltac unit_cases E m w :=
  unfold statusAfter, unitEvents, sendMessage;
  destruct (Z.of_nat (String.length (Content m)) >? maxMessageLength)
    eqn:Hlen;
  [ | destruct (jsonMarshal E (PhoneNumber m) (Content m)) as [body|] eqn:Hm;
      [ rewrite attemptLoop_run; cbv zeta;
        destruct (succeeds (roundTrip E 0)) eqn:S0;
        [ | destruct (ctxDone E 0) eqn:C0;
            [ | destruct (succeeds (roundTrip E 1)) eqn:S1;
                [ | destruct (ctxDone E 1) eqn:C1;
                    [ | destruct (succeeds (roundTrip E 2)) eqn:S2 ] ] ] ]
      | ] ];
  unfold log, emit; rewrite ?events_of, ?world_of.

Ltac read_events :=
  autorewrite with run;
  repeat match goal with
         | H : succeeds _ = _ |- _ => rewrite H
         end;
  cbn [app].

Section Unit.

Variables (E : Env) (m : Message) (w : World).

Lemma unit_sent_iff :
  markedSent (ID m) (unitEvents E m w)
  = someSucceeds (attemptsOf (unitEvents E m w)).
Proof.
  unfold markedSent, markedAs, someSucceeds.
  unit_cases E m w; read_events; cbn; rewrite ?Z.eqb_refl, ?S0, ?S1, ?S2;
    reflexivity.
Qed.

Lemma unit_failed_iff :
  markedFailed (ID m) (unitEvents E m w)
  = (length (attemptsOf (unitEvents E m w)) =? 3)%nat
    && allFail (attemptsOf (unitEvents E m w))
    && negb (cancelled (unitEvents E m w)).
Proof.
  unfold markedFailed, markedAs, allFail.
  unit_cases E m w; read_events; cbn; rewrite ?Z.eqb_refl, ?S0, ?S1, ?S2;
    reflexivity.
Qed.

Lemma unit_writes :
  writesOf (unitEvents E m w) =
  if someSucceeds (attemptsOf (unitEvents E m w))
  then [(MessageStatusSent, ID m)]
  else if markedFailed (ID m) (unitEvents E m w)
       then [(MessageStatusFailed, ID m)]
       else [].
Proof.
  rewrite unit_failed_iff. unfold someSucceeds, allFail.
  unit_cases E m w; read_events; cbn; rewrite ?S0, ?S1, ?S2; reflexivity.
Qed.

Lemma unit_db :
  db (world (sendMessage E m w)) =
  if someSucceeds (attemptsOf (unitEvents E m w)) then
    if markSentFails E then db w
    else alter (setStatus MessageStatusSent (execNow E)) (ID m) (db w)
  else if markedFailed (ID m) (unitEvents E m w) then
    if markFailedFails E then db w
    else alter (setStatus MessageStatusFailed (execNow E)) (ID m) (db w)
  else db w.
Proof.
  rewrite unit_failed_iff. unfold someSucceeds, allFail.
  unit_cases E m w; read_events; rewrite ?attempt_db, ?givenUp_db;
    cbn; rewrite ?S0, ?S1, ?S2; cbn;
    destruct (markSentFails E); reflexivity.
Qed.

Lemma unit_cancelled :
  cancelled (unitEvents E m w) = true ->
  writesOf (unitEvents E m w) = [] /\ world (sendMessage E m w) = w.
Proof.
  unit_cases E m w; read_events; cbn; intros H;
    solve [discriminate H | split; reflexivity].
Qed.

Lemma unit_success_last (a : Z) (r : RoundTrip) :
  In (a, r) (attemptsOf (unitEvents E m w)) -> succeeds r = true ->
  List.last (attemptsOf (unitEvents E m w)) (a, r) = (a, r)
  /\ attemptsOf (unitEvents E m w) <> [].
Proof.
  unit_cases E m w; read_events; cbn; intros H Hr;
    repeat match goal with
           | H : _ \/ _ |- _ => destruct H as [H|H]
           | H : False |- _ => destruct H
           | H : (_, _) = (_, _) |- _ => injection H as <- <-
           end;
    try congruence; (split; [reflexivity | discriminate]).
Qed.

Lemma unit_waits :
  allFail (attemptsOf (unitEvents E m w)) = true ->
  length (attemptsOf (unitEvents E m w)) = 3%nat ->
  waitsOf (unitEvents E m w) = [backoffDelay 0; backoffDelay 1].
Proof.
  unfold allFail.
  unit_cases E m w; read_events; cbn; rewrite ?S0, ?S1, ?S2; cbn;
    intros H1 H2; solve [discriminate | reflexivity].
Qed.

Lemma unit_attempt_indices :
  exists n : nat,
    (n <= 3)%nat
    /\ List.map fst (attemptsOf (unitEvents E m w)) = take n [0; 1; 2].
Proof.
  unit_cases E m w; read_events; cbn;
    first [ exists 0%nat; split; [lia | reflexivity]
          | exists 1%nat; split; [lia | reflexivity]
          | exists 2%nat; split; [lia | reflexivity]
          | exists 3%nat; split; [lia | reflexivity] ].
Qed.

Lemma unit_too_long :
  Z.of_nat (String.length (Content m)) > maxMessageLength ->
  sendMessage E m w
  = (tt, w, [Log (LogTooLong (ID m) (Z.of_nat (String.length (Content m))))]).
Proof.
  intros H. apply Z.gtb_gt in H. unfold sendMessage. now rewrite H.
Qed.

Lemma unit_marshal_failed :
  jsonMarshal E (PhoneNumber m) (Content m) = None ->
  attemptsOf (unitEvents E m w) = []
  /\ writesOf (unitEvents E m w) = []
  /\ world (sendMessage E m w) = w.
Proof.
  intros H. unfold unitEvents, sendMessage. rewrite H.
  destruct (Z.of_nat (String.length (Content m)) >? maxMessageLength);
    repeat split; reflexivity.
Qed.

End Unit.

(** ** The status left in the table *)

Lemma status_after_write (st : string) (t : Time) (id : Z) (d : gmap Z Row)
    (row : Row) :
  d !! id = Some row ->
  status <$> alter (setStatus st t) id d !! id = Some st.
Proof. intros H. rewrite lookup_alter_eq, H. reflexivity. Qed.


Lemma allFail_no_success (l : list (Z * RoundTrip)) (a : Z) (r : RoundTrip) :
  In (a, r) l -> succeeds r = true -> allFail l = false.
Proof.
  intros Hin Hr. unfold allFail.
  destruct (forallb _ l) eqn:Hall; [|reflexivity].
  rewrite forallb_forall in Hall. specialize (Hall _ Hin).
  cbn in Hall. rewrite Hr in Hall. discriminate.
Qed.

Lemma backoffDelay_doubles (i : Z) :
  0 <= i < maxRetries -> backoffDelay i = baseDelay * 2 ^ i.
Proof.
  unfold maxRetries. intros H.
  assert (i = 0 \/ i = 1 \/ i = 2) as [->|[->| ->]] by lia; reflexivity.
Qed.

(** ** The delivery unit: what the specification says of it *)

(** C1, as the code has it.  The delay computed after attempt [i] is the
    base delay times [2^i].  No delay follows the last attempt: a message
    whose three attempts all fail waits 1s and 2s, 3s in all, and is then
    marked failed. *)
Theorem backoff_doubles_between_attempts (E : Env) (m : Message) (w : World)
    (i : Z) :
  (0 <= i < maxRetries -> backoffDelay i = baseDelay * 2 ^ i)
  /\ (allFail (attemptsOf (unitEvents E m w)) = true ->
      length (attemptsOf (unitEvents E m w)) = 3%nat ->
      waitsOf (unitEvents E m w) = [1 * Second; 2 * Second]
      /\ sum (waitsOf (unitEvents E m w)) = 3 * Second
      /\ markedFailed (ID m) (unitEvents E m w) = true).
Proof.
  split; [apply backoffDelay_doubles|].
  intros Hall Hlen3.
  rewrite (unit_waits E m w Hall Hlen3).
  repeat split; try reflexivity.
  rewrite unit_failed_iff, Hall, Hlen3. cbn.
  revert Hall Hlen3. unfold allFail.
  unit_cases E m w; read_events; cbn; rewrite ?S0, ?S1, ?S2; cbn;
    intros; solve [discriminate | reflexivity].
Qed.

Lemma backoff_doubles_between_attempts_witness :
  backoffDelay 1 = baseDelay * 2 ^ 1
  /\ waitsOf (unitEvents (always (Response 500 DecodeError)) hello oneRow)
     = [1 * Second; 2 * Second]
  /\ sum (waitsOf (unitEvents (always (Response 500 DecodeError)) hello oneRow))
     = 3 * Second
  /\ markedFailed 1 (unitEvents (always (Response 500 DecodeError)) hello oneRow)
     = true.
Proof.
  destruct (backoff_doubles_between_attempts
              (always (Response 500 DecodeError)) hello oneRow 1) as [H1 H2].
  split.
  - apply H1. unfold maxRetries. lia.
  - apply H2; reflexivity.
Defined.

(** C1, to the letter, fails: after three rejected attempts the waits are
    not 1s, 2s, 4s. *)
Lemma backoff_1_2_4_fails :
  ~ backoff_1_2_4 (always (Response 500 DecodeError)) hello oneRow.
Proof.
  intros H. destruct H as [H _]; [reflexivity | reflexivity |].
  vm_compute in H. discriminate H.
Qed.

(** C2, as the code has it.  The write of [sent] is issued exactly when one
    of the attempts made is accepted with a body that decodes; the table
    then holds [sent] for a pending message exactly when that write also
    succeeds.  An accepted response whose body does not decode makes the
    attempt return false without any write. *)
Theorem sent_iff_accepted_and_written (E : Env) (m : Message) (w : World)
    (row : Row) (body : string) (a code : Z) :
  markedSent (ID m) (unitEvents E m w)
  = someSucceeds (attemptsOf (unitEvents E m w))
  /\ (db w !! ID m = Some row -> status row = MessageStatusPending ->
      (statusAfter E m w = Some MessageStatusSent
       <-> someSucceeds (attemptsOf (unitEvents E m w)) = true
           /\ markSentFails E = false))
  /\ (roundTrip E a = Response code DecodeError -> accepted code = true ->
      sendMessageWithRetry E m body a w
      = (false, w,
         [Attempt (ID m) a body (Response code DecodeError);
          Log (LogSent (ID m) (a + 1));
          Log (LogParseFailed (ID m) (a + 1))])).
Proof.
  split; [apply unit_sent_iff|]. split.
  - intros Hrow Hst. unfold statusAfter. rewrite unit_db.
    destruct (someSucceeds _).
    + destruct (markSentFails E).
      * rewrite Hrow. cbn. rewrite Hst. split; [discriminate|].
        intros [_ H]; discriminate H.
      * rewrite (status_after_write _ _ _ _ _ Hrow). split; auto.
    + assert (status <$> db w !! ID m <> Some MessageStatusSent) as Hne
        by (rewrite Hrow; cbn; rewrite Hst; discriminate).
      destruct (markedFailed _ _); [destruct (markFailedFails E)|];
        rewrite ?(status_after_write _ _ _ _ _ Hrow);
        (split; [intros H; try contradiction; discriminate H
                |intros [H _]; discriminate H]).
  - intros Hr Hc. unfold sendMessageWithRetry. rewrite Hr, Hc. reflexivity.
Qed.

Lemma sent_iff_accepted_and_written_witness :
  (statusAfter (always (Response 201 (MessageID "abc"))) hello oneRow
   = Some MessageStatusSent
   <-> someSucceeds
         (attemptsOf
            (unitEvents (always (Response 201 (MessageID "abc"))) hello oneRow))
       = true
       /\ markSentFails (always (Response 201 (MessageID "abc"))) = false)
  /\ sendMessageWithRetry (always (Response 200 DecodeError)) hello "{}" 0 oneRow
     = (false, oneRow,
        [Attempt 1 0 "{}" (Response 200 DecodeError);
         Log (LogSent 1 (0 + 1)); Log (LogParseFailed 1 (0 + 1))]).
Proof.
  split.
  - apply (sent_iff_accepted_and_written
             (always (Response 201 (MessageID "abc"))) hello oneRow helloRow
             "{}" 0 200); reflexivity.
  - apply (sent_iff_accepted_and_written
             (always (Response 200 DecodeError)) hello oneRow helloRow
             "{}" 0 200); reflexivity.
Defined.

(** C2, to the letter, fails: when the write of [sent] fails the attempt was
    accepted with a body that decodes, and the table still holds
    [pending]. *)
Lemma sent_iff_accepted_fails :
  ~ sent_iff_accepted
      (withMarkSentFails true (always (Response 200 (MessageID "abc"))))
      hello oneRow.
Proof.
  intros [_ H]. specialize (H eq_refl). vm_compute in H. discriminate H.
Qed.




(** The other way C3 fails to the letter: the three attempts are rejected
    and the write of [failed] is refused by the table. *)
Example failed_write_refused :
  allRejectedOrErrored
    (attemptsOf
       (unitEvents (withMarkFailedFails true (always (Response 500 DecodeError)))
          hello oneRow)) = true
  /\ markedFailed 1
       (unitEvents (withMarkFailedFails true (always (Response 500 DecodeError)))
          hello oneRow) = true
  /\ statusAfter (withMarkFailedFails true (always (Response 500 DecodeError)))
       hello oneRow = Some MessageStatusPending.
Proof. repeat split. Qed.

(** C4.  A message whose body is longer than [maxMessageLength] (160) gets
    no delivery attempt and no status write; the table and the cache are
    left as they were, so the message keeps its status. *)
Theorem too_long_is_skipped (E : Env) (m : Message) (w : World) :
  Z.of_nat (String.length (Content m)) > maxMessageLength ->
  attemptsOf (unitEvents E m w) = []
  /\ writesOf (unitEvents E m w) = []
  /\ world (sendMessage E m w) = w
  /\ statusAfter E m w = status <$> db w !! ID m.
Proof.
  intros H. unfold statusAfter, unitEvents.
  rewrite (unit_too_long E m w H). repeat split.
Qed.

Lemma too_long_is_skipped_witness :
  attemptsOf (unitEvents (always (Response 200 (MessageID "abc"))) tooLong oneRow)
  = []
  /\ writesOf (unitEvents (always (Response 200 (MessageID "abc"))) tooLong oneRow)
     = []
  /\ world (sendMessage (always (Response 200 (MessageID "abc"))) tooLong oneRow)
     = oneRow
  /\ statusAfter (always (Response 200 (MessageID "abc"))) tooLong oneRow
     = status <$> db oneRow !! ID tooLong.
Proof.
  apply (too_long_is_skipped (always (Response 200 (MessageID "abc")))
           tooLong oneRow).
  vm_compute. reflexivity.
Defined.

(** The bound is the source's: 160 bytes are still sent. *)
Example at_limit_is_sent :
  Z.of_nat (String.length (Content atLimit)) = maxMessageLength
  /\ attemptsOf (unitEvents (always (Response 200 (MessageID "abc"))) atLimit
                   emptyWorld)
     = [(0, Response 200 (MessageID "abc"))].
Proof. split; reflexivity. Qed.

(** C5.  When the context is cancelled during a backoff, the unit returns
    with no status write issued, neither [sent] nor [failed]; the table and
    the cache are left as they were, so the message keeps its status. *)
Theorem cancel_in_backoff_writes_nothing (E : Env) (m : Message) (w : World) :
  cancelled (unitEvents E m w) = true ->
  writesOf (unitEvents E m w) = []
  /\ markedSent (ID m) (unitEvents E m w) = false
  /\ markedFailed (ID m) (unitEvents E m w) = false
  /\ world (sendMessage E m w) = w
  /\ statusAfter E m w = status <$> db w !! ID m.
Proof.
  intros H. destruct (unit_cancelled E m w H) as [Hw Hworld].
  unfold markedSent, markedFailed, statusAfter.
  rewrite !(markedAs_no_writes _ _ _ Hw), Hworld. now repeat split.
Qed.

Lemma cancel_in_backoff_writes_nothing_witness :
  writesOf (unitEvents (withCtxDone (fun a => a =? 1) (always TransportError))
              hello oneRow) = []
  /\ markedSent 1 (unitEvents (withCtxDone (fun a => a =? 1) (always TransportError))
                     hello oneRow) = false
  /\ markedFailed 1 (unitEvents (withCtxDone (fun a => a =? 1) (always TransportError))
                       hello oneRow) = false
  /\ world (sendMessage (withCtxDone (fun a => a =? 1) (always TransportError))
              hello oneRow) = oneRow
  /\ statusAfter (withCtxDone (fun a => a =? 1) (always TransportError))
       hello oneRow = status <$> db oneRow !! 1.
Proof.
  apply (cancel_in_backoff_writes_nothing
           (withCtxDone (fun a => a =? 1) (always TransportError)) hello oneRow).
  reflexivity.
Defined.

(** A cancellation during the second backoff, event by event. *)
Example cancelled_run :
  unitEvents (withCtxDone (fun a => a =? 1) (always TransportError)) hello oneRow
  = [Attempt 1 0 "+84901234567|Hello from Insider!" TransportError;
     Log (LogSendFailed 1 1);
     Log (LogRetryIn 1 1 (1 * Second)); Select (1 * Second) TimerFired;
     Attempt 1 1 "+84901234567|Hello from Insider!" TransportError;
     Log (LogSendFailed 1 2);
     Log (LogRetryIn 1 2 (2 * Second)); Select (2 * Second) CtxDone;
     Log (LogRetryCancelled 1)].
Proof. reflexivity. Qed.

(** C6.  When an attempt is accepted with a body that decodes and the write
    of [sent] fails, the attempt still returns true: the write was issued,
    the table is unchanged, and the cache is written when the response
    carries a message id.  In the unit a successful attempt is the last
    one, and no write of [failed] is issued. *)
Theorem sent_write_failure_keeps_success (E : Env) (m : Message) (w : World)
    (body : string) (a code : Z) (mid : string) (a' : Z) (r : RoundTrip) :
  (markSentFails E = true ->
   roundTrip E a = Response code (MessageID mid) -> accepted code = true ->
   value (sendMessageWithRetry E m body a w) = true
   /\ In (Exec MessageStatusSent (ID m) false)
         (events (sendMessageWithRetry E m body a w))
   /\ db (world (sendMessageWithRetry E m body a w)) = db w
   /\ (mid <> ""%string ->
       cacheWritesOf (events (sendMessageWithRetry E m body a w))
       = [(cacheKey mid, formatRFC3339 E (now E))]))
  /\ (In (a', r) (attemptsOf (unitEvents E m w)) -> succeeds r = true ->
      List.last (attemptsOf (unitEvents E m w)) (a', r) = (a', r)
      /\ markedFailed (ID m) (unitEvents E m w) = false).
Proof.
  split.
  - intros Hf Hr Hc.
    rewrite attempt_value, attempt_db, attempt_cache, Hr, Hf. cbn.
    rewrite Hc, andb_false_r. cbn. repeat split.
    + unfold sendMessageWithRetry, bind, emit, log, ret, MarkAsSent, exec,
        cacheSet, events.
      rewrite Hr, Hc, Hf.
      destruct (String.eqb mid ""); cbn; [|destruct (cacheSetFails E)];
        cbn; auto.
    + intros Hne. apply String.eqb_neq in Hne. now rewrite Hne.
  - intros Hin Hr. split; [apply (unit_success_last E m w a' r Hin Hr)|].
    rewrite unit_failed_iff, (allFail_no_success _ _ _ Hin Hr).
    now rewrite andb_false_r.
Qed.

Lemma sent_write_failure_keeps_success_witness :
  (value (sendMessageWithRetry
            (withMarkSentFails true (always (Response 202 (MessageID "abc"))))
            hello "{}" 0 oneRow) = true
   /\ In (Exec MessageStatusSent 1 false)
         (events (sendMessageWithRetry
                    (withMarkSentFails true (always (Response 202 (MessageID "abc"))))
                    hello "{}" 0 oneRow))
   /\ db (world (sendMessageWithRetry
                   (withMarkSentFails true (always (Response 202 (MessageID "abc"))))
                   hello "{}" 0 oneRow)) = db oneRow
   /\ ("abc"%string <> ""%string ->
       cacheWritesOf (events (sendMessageWithRetry
                    (withMarkSentFails true (always (Response 202 (MessageID "abc"))))
                    hello "{}" 0 oneRow))
       = [(cacheKey "abc", "2025-10-19T07:41:45Z"%string)]))
  /\ (List.last
        (attemptsOf (unitEvents
           (withMarkSentFails true (always (Response 202 (MessageID "abc"))))
           hello oneRow)) (0, Response 202 (MessageID "abc"))
      = (0, Response 202 (MessageID "abc"))
      /\ markedFailed 1 (unitEvents
           (withMarkSentFails true (always (Response 202 (MessageID "abc"))))
           hello oneRow) = false).
Proof.
  destruct (sent_write_failure_keeps_success
              (withMarkSentFails true (always (Response 202 (MessageID "abc"))))
              hello oneRow "{}" 0 202 "abc" 0 (Response 202 (MessageID "abc")))
    as [H1 H2].
  split.
  - apply H1; reflexivity.
  - apply H2; [left|]; reflexivity.
Defined.

(** C8.  A response is taken as accepted exactly when its code is 200, 201
    or 202.  On any other code the attempt logs, drains the body and
    returns false; the world is unchanged and nothing is raised. *)
Theorem accepted_is_200_201_202 (E : Env) (m : Message) (w : World)
    (body : string) (a code : Z) (rbody : Decoded) :
  (accepted code = true <-> code = 200 \/ code = 201 \/ code = 202)
  /\ isRejected (Response code rbody) = negb (accepted code)
  /\ (roundTrip E a = Response code rbody -> accepted code = false ->
      sendMessageWithRetry E m body a w
      = (false, w,
         [Attempt (ID m) a body (Response code rbody);
          Log (LogRejected (ID m) (a + 1) code);
          DrainBody (ID m)]))
  /\ (roundTrip E a = Response code rbody -> accepted code = true ->
      In (Log (LogSent (ID m) (a + 1)))
         (events (sendMessageWithRetry E m body a w))).
Proof.
  split; [|split; [reflexivity|split]].
  - unfold accepted, StatusOK, StatusCreated, StatusAccepted.
    rewrite !orb_true_iff, !Z.eqb_eq. tauto.
  - intros Hr Hc. unfold sendMessageWithRetry. rewrite Hr, Hc. reflexivity.
  - intros Hr Hc.
    unfold sendMessageWithRetry, bind, emit, log, ret, MarkAsSent, cacheSet,
      exec, events.
    rewrite Hr, Hc. destruct rbody as [|mid]; cbn; auto.
    destruct (markSentFails E), (String.eqb mid ""); cbn; auto;
      destruct (cacheSetFails E); cbn; auto.
Qed.

Lemma accepted_is_200_201_202_witness :
  sendMessageWithRetry (always (Response 204 (MessageID "abc"))) hello "{}" 0
    oneRow
  = (false, oneRow,
     [Attempt 1 0 "{}" (Response 204 (MessageID "abc"));
      Log (LogRejected 1 (0 + 1) 204); DrainBody 1])
  /\ In (Log (LogSent 1 (0 + 1)))
        (events (sendMessageWithRetry (always (Response 201 DecodeError))
                   hello "{}" 0 oneRow)).
Proof.
  split.
  - apply (accepted_is_200_201_202 (always (Response 204 (MessageID "abc")))
             hello oneRow "{}" 0 204 (MessageID "abc")); reflexivity.
  - apply (accepted_is_200_201_202 (always (Response 201 DecodeError))
             hello oneRow "{}" 0 201 DecodeError); reflexivity.
Defined.

(** C10.  When the payload does not marshal, the unit makes no delivery
    attempt and issues no status write; the table and the cache are left as
    they were, so the message keeps its status. *)
Theorem marshal_failure_is_skipped (E : Env) (m : Message) (w : World) :
  jsonMarshal E (PhoneNumber m) (Content m) = None ->
  attemptsOf (unitEvents E m w) = []
  /\ writesOf (unitEvents E m w) = []
  /\ world (sendMessage E m w) = w
  /\ statusAfter E m w = status <$> db w !! ID m.
Proof.
  intros H. destruct (unit_marshal_failed E m w H) as (Ha & Hw & Hworld).
  unfold statusAfter. rewrite Hworld. now repeat split.
Qed.

Lemma marshal_failure_is_skipped_witness :
  attemptsOf (unitEvents (withJsonMarshal (fun _ _ => None) (always TransportError))
                hello oneRow) = []
  /\ writesOf (unitEvents (withJsonMarshal (fun _ _ => None) (always TransportError))
                 hello oneRow) = []
  /\ world (sendMessage (withJsonMarshal (fun _ _ => None) (always TransportError))
              hello oneRow) = oneRow
  /\ statusAfter (withJsonMarshal (fun _ _ => None) (always TransportError))
       hello oneRow = status <$> db oneRow !! ID hello.
Proof.
  apply (marshal_failure_is_skipped
           (withJsonMarshal (fun _ _ => None) (always TransportError))
           hello oneRow).
  reflexivity.
Defined.

(** ** The scheduler loop *)

Lemma process_fetch_error (P : PassEnv) (w : World) :
  fetchFails P = true ->
  process P w = (tt, w, [Query 2 false; Log LogFetchError]).
Proof.
  intros H. unfold process, bind, FetchUnsent, log, emit. now rewrite H.
Qed.











(** With the database down the loop keeps turning until [Stop]: two failed
    passes, then the cancellation. *)
Example database_down_run :
  (fun s => (isRunning s, loops s, passes s, store s, journal s))
    <$> steps databaseDown
          [CallStart; Loop 0 Begin; Loop 0 Tick; CallStop; Loop 0 Done]
          (NewScheduler oneRow)
  = Some (false, [Exited], 2%nat, oneRow,
          [Log LogStarted;
           Query 2 false; Log LogFetchError;
           Query 2 false; Log LogFetchError;
           Log LogStopped; Log LogContextCancelled]).
Proof. reflexivity. Qed.

(** Before [Stop] the loop cannot return. *)
Example no_exit_before_stop :
  steps databaseDown [CallStart; Loop 0 Begin; Loop 0 Done]
    (NewScheduler oneRow) = None.
Proof. reflexivity. Qed.

(** A pass over one pending row that the endpoint accepts. *)
Example accepted_pass :
  (fun s => (status <$> db (store s) !! 1, redis (store s) !! cacheKey "abc",
             writesOf (journal s)))
    <$> steps allAccepted [CallStart; Loop 0 Begin] (NewScheduler oneRow)
  = Some (Some MessageStatusSent, Some "2025-10-19T07:41:45Z"%string,
          [(MessageStatusSent, 1)]).
Proof. reflexivity. Qed.

(** C9.  [Start] on a running scheduler and [Stop] on a stopped one return
    [nil] and leave everything as it was: no context is created or
    cancelled, no loop is started.  Neither ever returns an error. *)
Theorem redundant_start_stop (s : System) :
  (isRunning s = true -> Start s = (None, s))
  /\ (isRunning s = false -> Stop s = (None, s))
  /\ (Start s).1 = None
  /\ (Stop s).1 = None.
Proof.
  unfold Start, Stop. destruct (isRunning s); cbn; repeat split;
    intros H; discriminate H.
Qed.

Lemma redundant_start_stop_witness :
  Start started = (None, started)
  /\ Stop (NewScheduler oneRow) = (None, NewScheduler oneRow).
Proof.
  split.
  - apply (redundant_start_stop started). reflexivity.
  - apply (redundant_start_stop (NewScheduler oneRow)). reflexivity.
Defined.

(** A second [Start] starts no second loop. *)
Example start_twice :
  loops (Start started).2 = [Spawned] /\ IsRunning (Start started).2 = true.
Proof. split; reflexivity. Qed.

(** ** More on the delivery unit *)

Lemma attempt_cache_failed (E : Env) (m : Message) (body : string) (a : Z)
    (w : World) :
  succeeds (roundTrip E a) = false ->
  cacheWritesOf (events (sendMessageWithRetry E m body a w)) = [].
Proof.
  intros H. rewrite attempt_cache. unfold succeeds in H.
  destruct (roundTrip E a) as [| |code [|mid]]; try reflexivity.
  now rewrite H.
Qed.

Lemma attempt_redis (E : Env) (m : Message) (body : string) (a : Z)
    (w : World) :
  redis (world (sendMessageWithRetry E m body a w)) =
  match roundTrip E a with
  | Response code (MessageID mid) =>
      if accepted code && negb (String.eqb mid "") && negb (cacheSetFails E)
      then <[cacheKey mid := formatRFC3339 E (now E)]> (redis w)
      else redis w
  | _ => redis w
  end.
Proof.
  unfold sendMessageWithRetry, bind, emit, log, ret, MarkAsSent, cacheSet,
    exec, world.
  destruct (roundTrip E a) as [| |code [|mid]]; try reflexivity;
    destruct (accepted code); try reflexivity.
  destruct (markSentFails E); cbn;
    destruct (String.eqb mid ""); cbn; try reflexivity;
    destruct (cacheSetFails E); reflexivity.
Qed.

Lemma wrap64_small (z : Z) : - 2 ^ 63 <= z < 2 ^ 63 -> wrap64 z = z.
Proof. intros H. unfold wrap64. rewrite Z.mod_small; lia. Qed.

(** X1.  Whatever the endpoint, the table, the cache and the context do, a
    unit makes at most three attempts, numbered 0, 1, 2 in order, and waits
    once between two attempts: the waits are a prefix of 1s, 2s and never
    add up to more than 3s. *)
Theorem unit_attempts_and_waits_bounded (E : Env) (m : Message) (w : World) :
  (length (attemptsOf (unitEvents E m w)) <= 3)%nat
  /\ List.map fst (attemptsOf (unitEvents E m w))
     = List.map Z.of_nat (seq 0 (length (attemptsOf (unitEvents E m w))))
  /\ length (waitsOf (unitEvents E m w))
     = Nat.pred (length (attemptsOf (unitEvents E m w)))
  /\ waitsOf (unitEvents E m w)
     = take (length (waitsOf (unitEvents E m w))) [1 * Second; 2 * Second]
  /\ sum (waitsOf (unitEvents E m w)) <= 3 * Second.
Proof.
  unit_cases E m w; read_events; cbn;
    change (backoffDelay 0) with (1 * Second);
    change (backoffDelay 1) with (2 * Second);
    repeat split; try reflexivity; try lia; unfold Second; lia.
Qed.

(** X2.  A unit issues at most one status write, for its own message:
    nothing, [sent] or [failed], never both. *)
Theorem unit_writes_at_most_once (E : Env) (m : Message) (w : World) :
  (writesOf (unitEvents E m w) = []
   \/ writesOf (unitEvents E m w) = [(MessageStatusSent, ID m)]
   \/ writesOf (unitEvents E m w) = [(MessageStatusFailed, ID m)])
  /\ markedSent (ID m) (unitEvents E m w)
     && markedFailed (ID m) (unitEvents E m w) = false.
Proof.
  pose proof (unit_writes E m w) as Hw.
  destruct (someSucceeds _); [|destruct (markedFailed _ _) eqn:Hf].
  - split; [auto|]. unfold markedFailed.
    rewrite (markedAs_writes _ _ _ _ Hw). apply andb_false_r.
  - split; [auto|]. unfold markedSent.
    rewrite (markedAs_writes _ _ _ _ Hw). reflexivity.
  - split; [auto|]. apply andb_false_r.
Qed.


Lemma attempt_cache_In (E : Env) (m : Message) (body : string) (a : Z)
    (w : World) (k v : string) :
  In (k, v) (cacheWritesOf (events (sendMessageWithRetry E m body a w))) ->
  v = formatRFC3339 E (now E)
  /\ exists code mid,
       roundTrip E a = Response code (MessageID mid)
       /\ accepted code = true /\ mid <> ""%string /\ k = cacheKey mid.
Proof.
  rewrite attempt_cache.
  destruct (roundTrip E a) as [| |code [|mid]]; try contradiction.
  destruct (accepted code) eqn:Hc; [|contradiction].
  destruct (String.eqb_spec mid ""); [contradiction|].
  intros [H|[]]. injection H as <- <-.
  split; [reflexivity|]. exists code, mid. auto.
Qed.

Lemma attempt_cache_length (E : Env) (m : Message) (body : string) (a : Z)
    (w : World) :
  (length (cacheWritesOf (events (sendMessageWithRetry E m body a w))) <= 1)%nat.
Proof.
  rewrite attempt_cache.
  destruct (roundTrip E a) as [| |code [|mid]]; cbn; try lia.
  destruct (accepted code && negb (String.eqb mid "")); cbn; lia.
Qed.

(** X3.  A unit writes the cache at most once, and only for an attempt that
    was accepted with a message id that is not empty: the key is the prefix,
    a colon and that id, the value the formatted instant of the attempt.
    When no attempt succeeds the cache is left as it was. *)
Theorem unit_cache_only_on_success (E : Env) (m : Message) (w : World)
    (k v : string) :
  (length (cacheWritesOf (unitEvents E m w)) <= 1)%nat
  /\ (someSucceeds (attemptsOf (unitEvents E m w)) = false ->
      cacheWritesOf (unitEvents E m w) = []
      /\ redis (world (sendMessage E m w)) = redis w)
  /\ (In (k, v) (cacheWritesOf (unitEvents E m w)) ->
      v = formatRFC3339 E (now E)
      /\ exists a code mid,
           In (a, Response code (MessageID mid)) (attemptsOf (unitEvents E m w))
           /\ accepted code = true /\ mid <> ""%string
           /\ k = cacheKey mid).
Proof.
  unfold someSucceeds.
  unit_cases E m w; read_events;
    rewrite ?attempt_cache_failed by assumption; cbn [app];
    rewrite ?attempt_failed_world by assumption;
    cbn -[sendMessageWithRetry]; rewrite ?S0, ?S1, ?S2;
    cbn -[sendMessageWithRetry].
  all: split; [try first [apply attempt_cache_length | lia]|split].
  all: try (intros H; try discriminate H; split; try reflexivity;
            unfold givenUp; now destruct (markFailedFails E)).
  all: intros H;
    first [ contradiction
          | apply attempt_cache_In in H;
            destruct H as (Hv & code & mid & Hr & Hc & Hne & Hk);
            (split; [exact Hv|]); rewrite Hr;
            eexists _, code, mid; repeat split; auto 10 ].
Qed.

Lemma unit_cache_only_on_success_witness :
  (cacheWritesOf (unitEvents (always TransportError) hello oneRow) = []
   /\ redis (world (sendMessage (always TransportError) hello oneRow))
      = redis oneRow)
  /\ ("2025-10-19T07:41:45Z"%string
      = formatRFC3339 (always (Response 201 (MessageID "abc")))
          (now (always (Response 201 (MessageID "abc"))))
      /\ exists a code mid,
           In (a, Response code (MessageID mid))
              (attemptsOf
                 (unitEvents (always (Response 201 (MessageID "abc")))
                    hello oneRow))
           /\ accepted code = true /\ mid <> ""%string
           /\ "insider:msg:sent:abc"%string = cacheKey mid).
Proof.
  split.
  - apply (unit_cache_only_on_success (always TransportError) hello oneRow
             "" ""). reflexivity.
  - apply (unit_cache_only_on_success
             (always (Response 201 (MessageID "abc"))) hello oneRow
             "insider:msg:sent:abc" "2025-10-19T07:41:45Z").
    left. reflexivity.
Defined.

Lemma alter_status_frame (st : string) (t : Time) (id : Z) (d : gmap Z Row) :
  (forall id', id' <> id -> alter (setStatus st t) id d !! id' = d !! id')
  /\ dom (alter (setStatus st t) id d) = dom d
  /\ phone_number <$> alter (setStatus st t) id d !! id
     = phone_number <$> d !! id
  /\ content <$> alter (setStatus st t) id d !! id = content <$> d !! id.
Proof.
  repeat split.
  - intros id' Hne. now apply lookup_alter_ne.
  - apply dom_alter_L.
  - rewrite lookup_alter_eq. now destruct (d !! id).
  - rewrite lookup_alter_eq. now destruct (d !! id).
Qed.

Lemma unit_db_cases (E : Env) (m : Message) (w : World) :
  db (world (sendMessage E m w)) = db w
  \/ db (world (sendMessage E m w))
     = alter (setStatus MessageStatusSent (execNow E)) (ID m) (db w)
  \/ db (world (sendMessage E m w))
     = alter (setStatus MessageStatusFailed (execNow E)) (ID m) (db w).
Proof.
  rewrite unit_db.
  destruct (someSucceeds _); [destruct (markSentFails E); auto|].
  destruct (markedFailed _ _); [destruct (markFailedFails E)|]; auto.
Qed.

(** X4.  A unit changes at most the status and the [sent_at] of the row of
    its own message: every other row is left as it was, no row is added or
    removed, and the phone number and the content of its row are kept. *)
Theorem unit_touches_only_its_row (E : Env) (m : Message) (w : World)
    (id' : Z) :
  (id' <> ID m ->
   db (world (sendMessage E m w)) !! id' = db w !! id')
  /\ dom (db (world (sendMessage E m w))) = dom (db w)
  /\ phone_number <$> db (world (sendMessage E m w)) !! ID m
     = phone_number <$> db w !! ID m
  /\ content <$> db (world (sendMessage E m w)) !! ID m
     = content <$> db w !! ID m.
Proof.
  destruct (unit_db_cases E m w) as [-> | [-> | ->]];
    try (destruct (alter_status_frame MessageStatusSent (execNow E) (ID m)
                     (db w)) as (H1 & H2 & H3 & H4);
         now auto);
    try (destruct (alter_status_frame MessageStatusFailed (execNow E) (ID m)
                     (db w)) as (H1 & H2 & H3 & H4);
         now auto).
Qed.

Lemma unit_touches_only_its_row_witness :
  db (world (sendMessage (always (Response 200 (MessageID "abc"))) atLimit
               oneRow)) !! 1
  = db oneRow !! 1.
Proof.
  apply (unit_touches_only_its_row (always (Response 200 (MessageID "abc")))
           atLimit oneRow 1).
  discriminate.
Defined.

(** X5.  A message of admissible length whose first attempt is accepted with
    a body that decodes, with the table and the cache answering, is
    delivered without any wait: the row becomes [sent] with the instant of
    the repository, the cache gets the id of the response with the instant
    taken in the scheduler, and the unit ends there. *)
Theorem delivered_at_first_attempt (E : Env) (m : Message) (w : World)
    (body : string) (code : Z) (mid : string) :
  Z.of_nat (String.length (Content m)) <= maxMessageLength ->
  jsonMarshal E (PhoneNumber m) (Content m) = Some body ->
  roundTrip E 0 = Response code (MessageID mid) -> accepted code = true ->
  markSentFails E = false -> cacheSetFails E = false ->
  db (world (sendMessage E m w))
  = alter (setStatus MessageStatusSent (execNow E)) (ID m) (db w)
  /\ redis (world (sendMessage E m w))
     = (if String.eqb mid "" then redis w
        else <[cacheKey mid := formatRFC3339 E (now E)]> (redis w))
  /\ attemptsOf (unitEvents E m w) = [(0, Response code (MessageID mid))]
  /\ waitsOf (unitEvents E m w) = []
  /\ writesOf (unitEvents E m w) = [(MessageStatusSent, ID m)]
  /\ cacheWritesOf (unitEvents E m w)
     = (if String.eqb mid "" then []
        else [(cacheKey mid, formatRFC3339 E (now E))]).
Proof.
  intros Hlen Hm Hr Hc Hs Hcache.
  assert (succeeds (roundTrip E 0) = true) as S0 by (now rewrite Hr).
  unfold unitEvents, sendMessage.
  assert ((Z.of_nat (String.length (Content m)) >? maxMessageLength) = false)
    as -> by (rewrite Z.gtb_ltb; apply Z.ltb_ge; exact Hlen).
  rewrite Hm, attemptLoop_run. cbv zeta. rewrite S0.
  rewrite world_of, events_of, attempt_db, attempt_redis, attempt_attempts,
    attempt_waits, attempt_writes, attempt_cache, S0, Hr, Hc, Hs, Hcache.
  cbn. destruct (String.eqb mid ""); now repeat split.
Qed.

Lemma delivered_at_first_attempt_witness :
  db (world (sendMessage (always (Response 200 (MessageID "abc"))) hello oneRow))
  = alter (setStatus MessageStatusSent
             (execNow (always (Response 200 (MessageID "abc"))))) 1 (db oneRow)
  /\ waitsOf (unitEvents (always (Response 200 (MessageID "abc"))) hello oneRow)
     = [].
Proof.
  destruct (delivered_at_first_attempt
              (always (Response 200 (MessageID "abc"))) hello oneRow
              "+84901234567|Hello from Insider!" 200 "abc")
    as (H1 & _ & _ & H4 & _); try reflexivity.
  - vm_compute. discriminate.
  - split; [exact H1 | exact H4].
Defined.

(** X6.  The delay expression does not overflow before attempt 34: up to
    attempt 33 it is the base delay times [2^attempt], positive, and each
    delay is twice the one before. *)
Theorem backoffDelay_without_overflow (i : Z) :
  0 <= i <= 33 ->
  backoffDelay i = baseDelay * 2 ^ i
  /\ 0 < backoffDelay i < 2 ^ 63
  /\ (i < 33 -> backoffDelay (i + 1) = 2 * backoffDelay i).
Proof.
  intros Hi.
  assert (forall j, 0 <= j <= 33 -> backoffDelay j = baseDelay * 2 ^ j) as Hb.
  { intros j Hj. unfold backoffDelay.
    rewrite Z.shiftl_1_l.
    assert (0 < 2 ^ j <= 2 ^ 33) as Hp
      by (split; [apply Z.pow_pos_nonneg; lia
                 | apply Z.pow_le_mono_r; lia]).
    change (2 ^ 33) with 8589934592 in Hp.
    rewrite (wrap64_small (2 ^ j))
      by (change (2 ^ 63) with 9223372036854775808; lia).
    apply wrap64_small. unfold baseDelay, Second.
    change (2 ^ 63) with 9223372036854775808. lia. }
  assert (0 < 2 ^ i <= 2 ^ 33) as Hp
    by (split; [apply Z.pow_pos_nonneg; lia | apply Z.pow_le_mono_r; lia]).
  change (2 ^ 33) with 8589934592 in Hp.
  rewrite (Hb i Hi). repeat split.
  - unfold baseDelay, Second. lia.
  - unfold baseDelay, Second. change (2 ^ 63) with 9223372036854775808. lia.
  - intros Hlt. rewrite (Hb (i + 1)) by lia.
    rewrite Z.pow_add_r by lia. change (2 ^ 1) with 2.
    unfold baseDelay, Second. lia.
Qed.

Lemma backoffDelay_without_overflow_witness :
  backoffDelay 33 = baseDelay * 2 ^ 33
  /\ 0 < backoffDelay 33 < 2 ^ 63
  /\ (33 < 33 -> backoffDelay (33 + 1) = 2 * backoffDelay 33).
Proof. apply (backoffDelay_without_overflow 33). lia. Defined.

(** At attempt 34 the product no longer fits an [int64]. *)
Example backoffDelay_overflows_at_34 : backoffDelay 34 < 0.
Proof. reflexivity. Qed.

(** ** More on the lifecycle *)

Lemma NewScheduler_lifecycle (w : World) : lifecycle (NewScheduler w).
Proof. split; [reflexivity|]. cbn. auto. Qed.

Lemma Start_lifecycle (s : System) : lifecycle s -> lifecycle (Start s).2.
Proof.
  intros [Hlen Hctx]. unfold Start.
  destruct (isRunning s) eqn:Hrun;
    [cbn; split; [exact Hlen | now rewrite Hrun] |].
  split; cbn.
  - rewrite !length_app. cbn. lia.
  - rewrite length_app. cbn. split; [lia|]. split.
    + rewrite lookup_app_r by lia. now rewrite Nat.sub_diag.
    + intros c' Hc'. rewrite lookup_app_l by lia.
      destruct (ctx s) as [c|].
      * destruct Hctx as (Hc & Hlive & Hold).
        destruct (decide (c' = c)) as [->|Hne]; [exact Hlive|].
        apply Hold. lia.
      * destruct Hctx as [Hnil _]. rewrite Hnil in Hc'. cbn in Hc'. lia.
Qed.

Lemma Stop_lifecycle (s : System) : lifecycle s -> lifecycle (Stop s).2.
Proof.
  intros [Hlen Hctx]. unfold Stop.
  destruct (isRunning s) eqn:Hrun; cbn;
    [|split; [exact Hlen | now rewrite Hrun]].
  unfold lifecycle, cancel. cbn.
  destruct (ctx s) as [c|].
  - destruct Hctx as (Hc & Hlive & Hold).
    rewrite length_insert. split; [exact Hlen|]. split; [exact Hc|]. split.
    + apply list_lookup_insert_eq. lia.
    + intros c' Hc'. rewrite list_lookup_insert_ne by lia. now apply Hold.
  - destruct Hctx as [_ Hoff]. discriminate Hoff.
Qed.

Lemma run_lifecycle (X : nat -> PassEnv) (i : nat) (sig : Signal)
    (s s' : System) :
  lifecycle s -> run X i sig s = Some s' -> lifecycle s'.
Proof.
  intros [Hlen Hctx] Hrun. unfold run in Hrun.
  destruct (loops s !! i) as [[| |]|], sig; try discriminate;
    try (injection Hrun as <-; split; cbn;
         [now rewrite length_insert | exact Hctx]).
  destruct (ctxCancelled s); [|discriminate].
  injection Hrun as <-. split; cbn; [now rewrite length_insert | exact Hctx].
Qed.

Lemma step_lifecycle (X : nat -> PassEnv) (a : Action) (s s' : System) :
  lifecycle s -> step X a s = Some s' -> lifecycle s'.
Proof.
  intros Hs Hstep. destruct a as [| |i sig]; cbn in Hstep.
  - injection Hstep as <-. now apply Start_lifecycle.
  - injection Hstep as <-. now apply Stop_lifecycle.
  - eapply run_lifecycle; eauto.
Qed.

Lemma steps_lifecycle (X : nat -> PassEnv) (acts : list Action) :
  forall s s', lifecycle s -> steps X acts s = Some s' -> lifecycle s'.
Proof.
  induction acts as [|a acts IH]; intros s s' Hs Hsteps; cbn in Hsteps.
  - now injection Hsteps as <-.
  - destruct (step X a s) as [s1|] eqn:Hstep; [|discriminate].
    eapply IH; [|exact Hsteps]. eapply step_lifecycle; eauto.
Qed.

Lemma lifecycle_cancelled (s : System) :
  lifecycle s -> ctx s <> None -> ctxCancelled s = negb (isRunning s).
Proof.
  intros [_ Hctx] Hsome. unfold ctxCancelled.
  destruct (ctx s) as [c|]; [|contradiction].
  destruct Hctx as (_ & Hlive & _). now rewrite Hlive.
Qed.

(** X7.  In every state reached from a new scheduler by calls of [Start] and
    [Stop] and steps of the loops: a context and a loop were created
    together; the context of the cycle is cancelled exactly when the
    scheduler is not running; and a context that is not cancelled is the
    one of the cycle, so at most one context is live. *)
Theorem lifecycle_invariant (X : nat -> PassEnv) (acts : list Action)
    (w : World) (s : System) (c : nat) :
  steps X acts (NewScheduler w) = Some s ->
  length (loops s) = length (contexts s)
  /\ (ctx s <> None -> ctxCancelled s = negb (isRunning s))
  /\ (isRunning s = true -> exists c0, ctx s = Some c0)
  /\ (contexts s !! c = Some false -> ctx s = Some c /\ isRunning s = true).
Proof.
  intros Hsteps.
  pose proof (steps_lifecycle X acts _ _ (NewScheduler_lifecycle w) Hsteps)
    as Hs.
  split; [apply Hs|]. split; [now apply lifecycle_cancelled|].
  destruct Hs as [Hlen Hctx]. split.
  - intros Hrun. destruct (ctx s) as [c0|]; [eauto|].
    destruct Hctx as [_ Hoff]. congruence.
  - intros Hc. destruct (ctx s) as [c0|].
    + destruct Hctx as (Hlast & Hlive & Hold).
      assert (c < length (contexts s))%nat by (now apply lookup_lt_Some in Hc).
      destruct (decide (c = c0)) as [->|Hne].
      * split; [reflexivity|]. rewrite Hlive in Hc.
        injection Hc as Hc. now apply negb_false_iff in Hc.
      * rewrite Hold in Hc by lia. discriminate Hc.
    + destruct Hctx as [Hnil _]. rewrite Hnil in Hc. discriminate Hc.
Qed.

Lemma lifecycle_invariant_witness :
  length (loops (Start (Stop started).2).2)
  = length (contexts (Start (Stop started).2).2)
  /\ (ctx (Start (Stop started).2).2 <> None ->
      ctxCancelled (Start (Stop started).2).2
      = negb (isRunning (Start (Stop started).2).2))
  /\ (isRunning (Start (Stop started).2).2 = true ->
      exists c0, ctx (Start (Stop started).2).2 = Some c0)
  /\ (contexts (Start (Stop started).2).2 !! 1%nat = Some false ->
      ctx (Start (Stop started).2).2 = Some 1%nat
      /\ isRunning (Start (Stop started).2).2 = true).
Proof.
  apply (lifecycle_invariant databaseDown [CallStart; CallStop; CallStart]
           oneRow (Start (Stop started).2).2 1).
  reflexivity.
Defined.

(** X8.  [Stop] on a running scheduler lets the loop return: before it the
    case of the cancelled context cannot fire for the loop of the running
    cycle, after it a loop waiting in its [select] can return, and a loop
    that has returned takes no further step: it makes no more passes. *)
Theorem stop_lets_the_loop_return (X : nat -> PassEnv) (acts : list Action)
    (w : World) (s : System) (i : nat) (sig : Signal) :
  steps X acts (NewScheduler w) = Some s ->
  isRunning s = true -> loops s !! i = Some Selecting ->
  (ctx s = Some i -> run X i Done s = None)
  /\ exists s',
       run X i Done (Stop s).2 = Some s'
       /\ loops s' !! i = Some Exited
       /\ store s' = store s
       /\ passes s' = passes s
       /\ run X i sig s' = None.
Proof.
  intros Hsteps Hrun Hi.
  pose proof (steps_lifecycle X acts _ _ (NewScheduler_lifecycle w) Hsteps)
    as Hs.
  assert (exists c0, ctx s = Some c0) as [c0 Hc0].
  { destruct Hs as [_ Hctx]. destruct (ctx s) as [c0|]; [eauto|].
    destruct Hctx as [_ Hoff]. congruence. }
  assert (ctxCancelled s = false) as Hlive
    by (rewrite (lifecycle_cancelled s Hs), Hrun; [reflexivity | congruence]).
  assert (ctxCancelled (Stop s).2 = true) as Hdone.
  { rewrite (lifecycle_cancelled _ (Stop_lifecycle s Hs)).
    - unfold Stop. now rewrite Hrun.
    - unfold Stop. rewrite Hrun. cbn. congruence. }
  split; [intros _; unfold run; now rewrite Hi, Hlive|].
  assert (loops (Stop s).2 !! i = Some Selecting) as Hi'
    by (unfold Stop; now rewrite Hrun).
  eexists. split; [unfold run; rewrite Hi', Hdone; reflexivity|].
  assert (i < length (loops s))%nat as Hlt by (now apply lookup_lt_Some in Hi).
  unfold Stop. rewrite Hrun. cbn.
  repeat split.
  - now apply list_lookup_insert_eq.
  - unfold run. cbn. rewrite list_lookup_insert_eq by exact Hlt. reflexivity.
Qed.

Lemma stop_lets_the_loop_return_witness :
  run databaseDown 0 Done (runPass databaseDown 0 Selecting started) = None
  /\ exists s',
       run databaseDown 0 Done
         (Stop (runPass databaseDown 0 Selecting started)).2 = Some s'
       /\ loops s' !! 0%nat = Some Exited
       /\ store s' = store (runPass databaseDown 0 Selecting started)
       /\ passes s' = passes (runPass databaseDown 0 Selecting started)
       /\ run databaseDown 0 Tick s' = None.
Proof.
  destruct (stop_lets_the_loop_return databaseDown [CallStart; Loop 0 Begin]
              oneRow (runPass databaseDown 0 Selecting started) 0 Tick)
    as [H1 H2]; try reflexivity.
  split; [apply H1; reflexivity | exact H2].
Defined.

(** X9.  A loop that has returned stays so, whatever happens next. *)
Theorem exited_loops_stay_exited (X : nat -> PassEnv) (acts : list Action)
    (s s' : System) (i : nat) :
  loops s !! i = Some Exited -> steps X acts s = Some s' ->
  loops s' !! i = Some Exited.
Proof.
  revert s. induction acts as [|a acts IH]; intros s Hi Hsteps; cbn in Hsteps.
  - now injection Hsteps as <-.
  - destruct (step X a s) as [s1|] eqn:Hstep; [|discriminate].
    apply (IH s1); [|exact Hsteps].
    assert (i < length (loops s))%nat as Hlt by (now apply lookup_lt_Some in Hi).
    destruct a as [| |j sig]; cbn in Hstep.
    + injection Hstep as <-. unfold Start.
      destruct (isRunning s); [exact Hi|]. cbn.
      now rewrite lookup_app_l.
    + injection Hstep as <-. unfold Stop.
      destruct (negb (isRunning s)); exact Hi.
    + unfold run in Hstep.
      destruct (decide (j = i)) as [->|Hne].
      * rewrite Hi in Hstep. destruct sig; discriminate Hstep.
      * destruct (loops s !! j) as [[| |]|], sig; try discriminate;
          try (injection Hstep as <-; cbn;
               now rewrite list_lookup_insert_ne).
        destruct (ctxCancelled s); [|discriminate].
        injection Hstep as <-. cbn. now rewrite list_lookup_insert_ne.
Qed.

Lemma exited_loops_stay_exited_witness :
  loops (default returned
           (steps databaseDown [CallStart; Loop 1 Begin; Loop 1 Tick] returned))
    !! 0%nat
  = Some Exited.
Proof.
  apply (exited_loops_stay_exited databaseDown
           [CallStart; Loop 1 Begin; Loop 1 Tick] returned
           (default returned
              (steps databaseDown [CallStart; Loop 1 Begin; Loop 1 Tick]
                 returned)) 0);
    reflexivity.
Defined.

(** After a loop has returned, a new cycle runs beside it. *)
Example restart_after_exit :
  loops <$> steps databaseDown
              [CallStart; Loop 0 Begin; CallStop; Loop 0 Done;
               CallStart; Loop 1 Begin; Loop 1 Tick]
              (NewScheduler oneRow)
  = Some [Exited; Selecting].
Proof. reflexivity. Qed.

(** X10.  [Start] leaves the scheduler running and [Stop] leaves it stopped,
    whatever the state; neither touches the table or the cache; calling
    either twice is calling it once.  [Stop] followed by [Start] on a
    running scheduler of a reached state gives a new context that is not
    cancelled, cancels the old one, and starts one more loop. *)
Theorem start_stop_effects (X : nat -> PassEnv) (acts : list Action)
    (w : World) (s s0 : System) :
  IsRunning (Start s0).2 = true
  /\ IsRunning (Stop s0).2 = false
  /\ store (Start s0).2 = store s0
  /\ store (Stop s0).2 = store s0
  /\ (Start (Start s0).2).2 = (Start s0).2
  /\ (Stop (Stop s0).2).2 = (Stop s0).2
  /\ (steps X acts (NewScheduler w) = Some s -> isRunning s = true ->
      ctxCancelled (Start (Stop s).2).2 = false
      /\ ctx (Start (Stop s).2).2 <> ctx s
      /\ (forall c, ctx s = Some c ->
                    contexts (Start (Stop s).2).2 !! c = Some true)
      /\ length (loops (Start (Stop s).2).2) = S (length (loops s))).
Proof.
  repeat split.
  - unfold IsRunning, Start. now destruct (isRunning s0) eqn:H.
  - unfold IsRunning, Stop. now destruct (isRunning s0) eqn:H.
  - unfold Start. now destruct (isRunning s0).
  - unfold Stop. now destruct (isRunning s0).
  - unfold Start at 1.
    assert (isRunning (Start s0).2 = true) as ->
      by (unfold Start; now destruct (isRunning s0) eqn:H).
    reflexivity.
  - unfold Stop at 1.
    assert (isRunning (Stop s0).2 = false) as ->
      by (unfold Stop; now destruct (isRunning s0) eqn:H).
    reflexivity.
  - pose proof (steps_lifecycle X acts _ _ (NewScheduler_lifecycle w) H) as Hs.
    pose proof (Start_lifecycle _ (Stop_lifecycle s Hs)) as Hs2.
    rewrite (lifecycle_cancelled _ Hs2).
    + unfold Start, Stop. rewrite H0. reflexivity.
    + unfold Start, Stop. rewrite H0. cbn. discriminate.
  - pose proof (steps_lifecycle X acts _ _ (NewScheduler_lifecycle w) H)
      as [_ Hctx].
    unfold Start, Stop. rewrite H0. cbn. unfold cancel.
    destruct (ctx s) as [c|]; [|discriminate].
    destruct Hctx as (Hc & _). rewrite length_insert. intros Heq.
    injection Heq as Heq. lia.
  - intros c Hc.
    pose proof (steps_lifecycle X acts _ _ (NewScheduler_lifecycle w) H)
      as [_ Hctx].
    rewrite Hc in Hctx. destruct Hctx as (Hlast & _).
    unfold Start, Stop. rewrite H0. cbn. unfold cancel. rewrite Hc.
    rewrite lookup_app_l by (rewrite length_insert; lia).
    apply list_lookup_insert_eq. lia.
  - unfold Start, Stop. rewrite H0. cbn. rewrite length_app. cbn. lia.
Qed.

Lemma start_stop_effects_witness :
  ctxCancelled (Start (Stop started).2).2 = false
  /\ ctx (Start (Stop started).2).2 <> ctx started
  /\ (forall c, ctx started = Some c ->
                contexts (Start (Stop started).2).2 !! c = Some true)
  /\ length (loops (Start (Stop started).2).2) = S (length (loops started)).
Proof.
  apply (start_stop_effects databaseDown [CallStart] oneRow started started);
    reflexivity.
Defined.

(** ** The statuses in the table *)

Lemma IsValidMessageStatus_cases (st : string) :
  IsValidMessageStatus st = true <->
  st = MessageStatusPending \/ st = MessageStatusSent
  \/ st = MessageStatusFailed.
Proof.
  unfold IsValidMessageStatus, MessageStatusValues. cbn.
  rewrite !orb_true_iff, !String.eqb_eq. intuition discriminate.
Qed.

Lemma filter_length_perm {A} (f : A -> bool) (l l' : list A) :
  l ≡ₚ l' -> length (List.filter f l) = length (List.filter f l').
Proof.
  induction 1 as [|x l l' _ IH|x y l|l1 l2 l3 _ IH1 _ IH2]; cbn.
  - reflexivity.
  - destruct (f x); cbn; now rewrite IH.
  - destruct (f x), (f y); reflexivity.
  - now rewrite IH1.
Qed.

Lemma filter_status_cons (st : string) (kr : Z * Row) (l : list (Z * Row)) :
  Z.of_nat (length (List.filter (hasStatus st) (kr :: l)))
  = b2z (String.eqb (status kr.2) st)
    + Z.of_nat (length (List.filter (hasStatus st) l)).
Proof.
  cbn [List.filter]. unfold hasStatus at 1.
  destruct (String.eqb (status kr.2) st); cbn [length b2z]; lia.
Qed.

Lemma count_partition (l : list (Z * Row)) :
  Forall (fun kr => IsValidMessageStatus (status kr.2) = true) l ->
  (length (List.filter (hasStatus MessageStatusPending) l)
   + length (List.filter (hasStatus MessageStatusSent) l)
   + length (List.filter (hasStatus MessageStatusFailed) l))%nat
  = length l.
Proof.
  induction 1 as [|kr l Hv _ IH]; [reflexivity|].
  apply IsValidMessageStatus_cases in Hv.
  pose proof (filter_status_cons MessageStatusPending kr l) as Hp.
  pose proof (filter_status_cons MessageStatusSent kr l) as Hs.
  pose proof (filter_status_cons MessageStatusFailed kr l) as Hf.
  destruct Hv as [Hv | [Hv | Hv]]; rewrite Hv in Hp, Hs, Hf;
    cbn [b2z String.eqb Ascii.eqb Bool.eqb MessageStatusPending
         MessageStatusSent MessageStatusFailed] in Hp, Hs, Hf;
    cbn [length]; lia.
Qed.

Lemma alter_as_insert {A} (f : A -> A) (id : Z) (d : gmap Z A) (x : A) :
  d !! id = Some x -> alter f id d = <[id := f x]> (delete id d).
Proof.
  intros H. apply map_eq. intros j. destruct (decide (id = j)) as [<-|Hne].
  - now rewrite lookup_alter_eq, lookup_insert_eq, H.
  - now rewrite lookup_alter_ne, lookup_insert_ne, lookup_delete_ne.
Qed.

Lemma alter_missing {A} (f : A -> A) (id : Z) (d : gmap Z A) :
  d !! id = None -> alter f id d = d.
Proof.
  intros H. apply map_eq. intros j. destruct (decide (id = j)) as [<-|Hne].
  - now rewrite lookup_alter_eq, H.
  - now rewrite lookup_alter_ne.
Qed.

Lemma countStatus_alter (st st' : string) (t : Time) (id : Z) (d : gmap Z Row)
    (row : Row) :
  d !! id = Some row ->
  countStatus st' (alter (setStatus st t) id d)
  = countStatus st' d - b2z (String.eqb (status row) st')
    + b2z (String.eqb st st').
Proof.
  intros H. unfold countStatus.
  rewrite (alter_as_insert _ _ _ _ H).
  rewrite (filter_length_perm _ _ _
             (map_to_list_insert (delete id d) id (setStatus st t row)
                (lookup_delete_eq d id))).
  rewrite <- (filter_length_perm _ _ _ (map_to_list_delete d id row H)).
  rewrite !filter_status_cons. cbn [snd status setStatus]. lia.
Qed.

(** X11.  A string is a valid status exactly when it is [pending], [sent] or
    [failed]; in a table in which every row carries a valid status the
    three counts add up to the number of rows. *)
Theorem counts_partition_the_table (st : string) (w : World) :
  (IsValidMessageStatus st = true <->
   st = MessageStatusPending \/ st = MessageStatusSent
   \/ st = MessageStatusFailed)
  /\ (validRows (db w) ->
      (CountPending false w).1 + (CountSent false w).1
      + (CountFailed false w).1
      = Z.of_nat (size (db w))).
Proof.
  split; [apply IsValidMessageStatus_cases|].
  intros Hv. unfold CountPending, CountSent, CountFailed, countQuery,
    countStatus. cbn [fst].
  apply map_Forall_to_list in Hv.
  rewrite <- length_map_to_list, <- (count_partition (map_to_list (db w))).
  - lia.
  - eapply Forall_impl; [exact Hv|]. now intros [k r].
Qed.

Lemma counts_partition_the_table_witness :
  (CountPending false oneRow).1 + (CountSent false oneRow).1
  + (CountFailed false oneRow).1
  = Z.of_nat (size (db oneRow)).
Proof.
  apply (counts_partition_the_table "sent" oneRow).
  apply map_Forall_to_list. vm_compute. repeat constructor.
Defined.

(** X12.  A write of [sent] or of [failed] that succeeds on a pending row
    moves exactly one row from the pending count to the count of its
    status and leaves the third count alone.  On an id the table does not
    hold, the write changes nothing and reports no error. *)
Theorem status_write_moves_one_row (E : Env) (id : Z) (w : World) (row : Row) :
  (markSentFails E = false -> db w !! id = Some row ->
   status row = MessageStatusPending ->
   countStatus MessageStatusPending (db (world (MarkAsSent E id w)))
   = countStatus MessageStatusPending (db w) - 1
   /\ countStatus MessageStatusSent (db (world (MarkAsSent E id w)))
      = countStatus MessageStatusSent (db w) + 1
   /\ countStatus MessageStatusFailed (db (world (MarkAsSent E id w)))
      = countStatus MessageStatusFailed (db w))
  /\ (markFailedFails E = false -> db w !! id = Some row ->
      status row = MessageStatusPending ->
      countStatus MessageStatusPending (db (world (MarkAsFailed E id w)))
      = countStatus MessageStatusPending (db w) - 1
      /\ countStatus MessageStatusFailed (db (world (MarkAsFailed E id w)))
         = countStatus MessageStatusFailed (db w) + 1
      /\ countStatus MessageStatusSent (db (world (MarkAsFailed E id w)))
         = countStatus MessageStatusSent (db w))
  /\ (markSentFails E = false -> db w !! id = None ->
      value (MarkAsSent E id w) = None
      /\ db (world (MarkAsSent E id w)) = db w).
Proof.
  unfold MarkAsSent, MarkAsFailed, exec, world, value.
  split; [|split]; intros -> Hrow; cbn [fst snd db].
  - intros Hst. rewrite !(countStatus_alter _ _ _ _ _ _ Hrow), Hst.
    cbn. lia.
  - intros Hst. rewrite !(countStatus_alter _ _ _ _ _ _ Hrow), Hst.
    cbn. lia.
  - split; [reflexivity|]. now apply alter_missing.
Qed.

Lemma status_write_moves_one_row_witness :
  (countStatus MessageStatusPending
     (db (world (MarkAsSent (always TransportError) 1 oneRow)))
   = countStatus MessageStatusPending (db oneRow) - 1
   /\ countStatus MessageStatusSent
        (db (world (MarkAsSent (always TransportError) 1 oneRow)))
      = countStatus MessageStatusSent (db oneRow) + 1
   /\ countStatus MessageStatusFailed
        (db (world (MarkAsSent (always TransportError) 1 oneRow)))
      = countStatus MessageStatusFailed (db oneRow))
  /\ (countStatus MessageStatusPending
        (db (world (MarkAsFailed (always TransportError) 1 oneRow)))
      = countStatus MessageStatusPending (db oneRow) - 1
      /\ countStatus MessageStatusFailed
           (db (world (MarkAsFailed (always TransportError) 1 oneRow)))
         = countStatus MessageStatusFailed (db oneRow) + 1
      /\ countStatus MessageStatusSent
           (db (world (MarkAsFailed (always TransportError) 1 oneRow)))
         = countStatus MessageStatusSent (db oneRow))
  /\ (value (MarkAsSent (always TransportError) 7 oneRow) = None
      /\ db (world (MarkAsSent (always TransportError) 7 oneRow)) = db oneRow).
Proof.
  split; [|split].
  - apply (status_write_moves_one_row (always TransportError) 1 oneRow
             helloRow); reflexivity.
  - apply (status_write_moves_one_row (always TransportError) 1 oneRow
             helloRow); reflexivity.
  - apply (status_write_moves_one_row (always TransportError) 7 oneRow
             helloRow); reflexivity.
Defined.

(** ** The fetch of the pending rows *)

Lemma filter_sublist {A} (f : A -> bool) (l : list A) :
  List.filter f l `sublist_of` l.
Proof.
  induction l as [|x l IH]; cbn; [constructor|].
  destruct (f x); now constructor.
Qed.

Lemma fmap_sublist {A B} (g : A -> B) (l1 l2 : list A) :
  l1 `sublist_of` l2 -> g <$> l1 `sublist_of` g <$> l2.
Proof. induction 1; cbn; now constructor. Qed.

Lemma fetched_sublist (f : Z * Row -> bool) (n : nat) (d : gmap Z Row) :
  take n (List.filter f (map_to_list d)) `sublist_of` map_to_list d.
Proof.
  transitivity (List.filter f (map_to_list d));
    [apply sublist_take | apply filter_sublist].
Qed.

Lemma fetched_ids (l : list (Z * Row)) : List.map ID (List.map scanRow l) = l.*1.
Proof. induction l as [|kr l IH]; cbn; [reflexivity|]. now rewrite IH. Qed.

Lemma fetched_row (n : nat) (d : gmap Z Row) (m : Message) :
  In m (List.map scanRow (take n (List.filter isPending (map_to_list d)))) ->
  Status m = MessageStatusPending
  /\ exists row,
       d !! ID m = Some row /\ status row = MessageStatusPending
       /\ phone_number row = PhoneNumber m /\ content row = Content m.
Proof.
  intros Hin. apply in_map_iff in Hin as ([k row] & <- & Hin).
  apply list_elem_of_In in Hin.
  assert ((k, row) ∈ List.filter isPending (map_to_list d)) as Hf
    by (eapply elem_of_sublist; [exact Hin | apply sublist_take]).
  apply list_elem_of_In, filter_In in Hf as [Hd Hp].
  apply list_elem_of_In, elem_of_map_to_list in Hd.
  unfold isPending in Hp. cbn in Hp. apply String.eqb_eq in Hp.
  cbn. split; [exact Hp|]. exists row. auto.
Qed.

(** X13.  When the query succeeds, [FetchUnsent] changes nothing and returns
    as many messages as the limit allows and the table holds pending rows:
    each is a pending row of the table with its id, phone number and
    content, and no id comes twice.  When the query fails it returns no
    message with the error. *)
Theorem FetchUnsent_returns_pending_rows (P : PassEnv) (limit : Z) (w : World)
    (m : Message) :
  (fetchFails P = true ->
   FetchUnsent P limit w = (([], Some "query"%string), w, [Query limit false]))
  /\ (fetchFails P = false -> 0 <= limit ->
      (value (FetchUnsent P limit w)).2 = None
      /\ world (FetchUnsent P limit w) = w
      /\ Z.of_nat (length (value (FetchUnsent P limit w)).1)
         = Z.min limit (CountPending false w).1
      /\ NoDup (List.map ID (value (FetchUnsent P limit w)).1)
      /\ (In m (value (FetchUnsent P limit w)).1 ->
          Status m = MessageStatusPending
          /\ exists row,
               db w !! ID m = Some row /\ status row = MessageStatusPending
               /\ phone_number row = PhoneNumber m
               /\ content row = Content m)).
Proof.
  unfold FetchUnsent, value, world. split; intros ->; [reflexivity|].
  intros Hlimit. cbn [fst snd].
  split; [reflexivity|]. split; [reflexivity|]. split; [|split].
  - rewrite length_map, length_take.
    unfold CountPending, countQuery, countStatus. cbn [fst].
    change (hasStatus MessageStatusPending) with isPending. lia.
  - rewrite fetched_ids. eapply sublist_NoDup.
    + apply (NoDup_fst_map_to_list (db w)).
    + apply fmap_sublist, fetched_sublist.
  - apply fetched_row.
Qed.

Lemma FetchUnsent_returns_pending_rows_witness :
  FetchUnsent (databaseDown 0) 2 oneRow
  = (([], Some "query"%string), oneRow, [Query 2 false])
  /\ (value (FetchUnsent (allAccepted 0) 2 oneRow)).2 = None
  /\ world (FetchUnsent (allAccepted 0) 2 oneRow) = oneRow
  /\ Z.of_nat (length (value (FetchUnsent (allAccepted 0) 2 oneRow)).1)
     = Z.min 2 (CountPending false oneRow).1
  /\ NoDup (List.map ID (value (FetchUnsent (allAccepted 0) 2 oneRow)).1)
  /\ (Status hello = MessageStatusPending
      /\ exists row,
           db oneRow !! ID hello = Some row
           /\ status row = MessageStatusPending
           /\ phone_number row = PhoneNumber hello
           /\ content row = Content hello).
Proof.
  split.
  - apply (FetchUnsent_returns_pending_rows (databaseDown 0) 2 oneRow hello).
    reflexivity.
  - destruct (FetchUnsent_returns_pending_rows (allAccepted 0) 2 oneRow hello)
      as [_ H].
    destruct H as (H1 & H2 & H3 & H4 & H5); [reflexivity | lia |].
    repeat (split; [assumption|]). apply H5. left. reflexivity.
Defined.

(** ** More on the processing pass *)

Lemma forEach_cons {A} (x : A) (l : list A) (f : A -> M unit) (w : World) :
  world (forEach (x :: l) f w) = world (forEach l f (world (f x w)))
  /\ events (forEach (x :: l) f w)
     = events (f x w) ++ events (forEach l f (world (f x w))).
Proof.
  cbn [forEach]. unfold bind, world, events.
  destruct (f x w) as [[[] w1] e1]. cbn [fst snd].
  destruct (forEach l f w1) as [[[] w2] e2]. split; reflexivity.
Qed.

Lemma forEach_invariant {A} (Q : World -> Prop) (l : list A)
    (f : A -> M unit) :
  (forall x, In x l -> forall w, Q w -> Q (world (f x w))) ->
  forall w, Q w -> Q (world (forEach l f w)).
Proof.
  induction l as [|x l IH]; intros Hf w Hw; [exact Hw|].
  rewrite (proj1 (forEach_cons x l f w)).
  apply IH; [intros y Hy; apply Hf; now right|].
  apply Hf; [now left | exact Hw].
Qed.

Lemma forEach_bounded {A B} (g : list Event -> list B) (n : nat) (l : list A)
    (f : A -> M unit) :
  (forall e1 e2, g (e1 ++ e2) = g e1 ++ g e2) -> g [] = [] ->
  (forall x w, (length (g (events (f x w))) <= n)%nat) ->
  forall w, (length (g (events (forEach l f w))) <= n * length l)%nat.
Proof.
  intros Happ Hnil Hf. induction l as [|x l IH]; intros w.
  - cbn. rewrite Hnil. cbn. lia.
  - rewrite (proj2 (forEach_cons x l f w)), Happ, length_app.
    specialize (Hf x w). specialize (IH (world (f x w))). cbn [length]. lia.
Qed.

Lemma process_fetched (P : PassEnv) (w : World) :
  fetchFails P = false ->
  world (process P w)
  = world (forEach (value (FetchUnsent P 2 w)).1
             (fun m => sendMessage (unitEnv P (ID m)) m) w)
  /\ events (process P w)
     = Query 2 true
       :: Log (LogFetched (length (value (FetchUnsent P 2 w)).1))
       :: events (forEach (value (FetchUnsent P 2 w)).1
                    (fun m => sendMessage (unitEnv P (ID m)) m) w).
Proof.
  intros Hf. unfold process, bind, FetchUnsent, log, emit, value, world,
    events.
  rewrite Hf. cbn [fst snd].
  destruct (forEach _ _ w) as [[[] w2] e2]. split; reflexivity.
Qed.

Lemma unit_attempts_le (E : Env) (m : Message) (w : World) :
  (length (attemptsOf (events (sendMessage E m w))) <= 3)%nat.
Proof.
  destruct (unit_attempt_indices E m w) as (n & Hn & Heq).
  apply (f_equal (@length Z)) in Heq.
  rewrite length_map, length_take in Heq. unfold unitEvents in Heq.
  cbn [length] in Heq. lia.
Qed.

Lemma unit_writes_le (E : Env) (m : Message) (w : World) :
  (length (writesOf (events (sendMessage E m w))) <= 1)%nat.
Proof.
  pose proof (unit_writes E m w) as Hw. unfold unitEvents in Hw.
  rewrite Hw.
  destruct (someSucceeds _); [cbn; lia|].
  destruct (markedFailed _ _); cbn; lia.
Qed.

Lemma validRows_alter (st : string) (t : Time) (id : Z) (d : gmap Z Row) :
  IsValidMessageStatus st = true -> validRows d ->
  validRows (alter (setStatus st t) id d).
Proof.
  intros Hst Hv j r Hj. destruct (decide (id = j)) as [<-|Hne].
  - rewrite lookup_alter_eq in Hj. destruct (d !! id); [|discriminate].
    cbn in Hj. injection Hj as <-. exact Hst.
  - rewrite lookup_alter_ne in Hj by exact Hne. exact (Hv j r Hj).
Qed.

Lemma unit_validRows (E : Env) (m : Message) (w : World) :
  validRows (db w) -> validRows (db (world (sendMessage E m w))).
Proof.
  intros Hv.
  destruct (unit_db_cases E m w) as [-> | [-> | ->]];
    [exact Hv | |]; now apply validRows_alter.
Qed.

Lemma unit_other_rows (E : Env) (m : Message) (w : World) (id : Z) :
  id <> ID m -> db (world (sendMessage E m w)) !! id = db w !! id.
Proof.
  intros Hne.
  destruct (unit_db_cases E m w) as [-> | [-> | ->]];
    [reflexivity | |]; now apply lookup_alter_ne.
Qed.

Lemma unit_dom (E : Env) (m : Message) (w : World) :
  dom (db (world (sendMessage E m w))) = dom (db w).
Proof.
  destruct (unit_db_cases E m w) as [-> | [-> | ->]];
    [reflexivity | |]; apply dom_alter_L.
Qed.

Lemma FetchUnsent_sound_aux (P : PassEnv) (w : World) :
  fetchFails P = false ->
  (length (value (FetchUnsent P 2 w)).1 <= 2)%nat
  /\ forall m, In m (value (FetchUnsent P 2 w)).1 ->
       exists row, db w !! ID m = Some row /\ status row = MessageStatusPending.
Proof.
  intros Hf. unfold FetchUnsent, value. rewrite Hf. cbn [fst snd]. split.
  - rewrite length_map, length_take. cbn. lia.
  - intros m Hm. apply fetched_row in Hm as (_ & row & H1 & H2 & _). eauto.
Qed.

(** X14.  A pass changes only rows that were pending when it fetched: a row
    with another status is left as it was, no row is added or removed, and
    a table whose statuses are all valid stays so.  A pass makes at most
    six delivery attempts and issues at most two status writes. *)
Theorem pass_touches_only_pending_rows (P : PassEnv) (w : World) (id : Z)
    (row : Row) :
  dom (db (world (process P w))) = dom (db w)
  /\ (db w !! id = Some row -> status row <> MessageStatusPending ->
      db (world (process P w)) !! id = Some row)
  /\ (validRows (db w) -> validRows (db (world (process P w))))
  /\ (length (attemptsOf (events (process P w))) <= 6)%nat
  /\ (length (writesOf (events (process P w))) <= 2)%nat.
Proof.
  destruct (fetchFails P) eqn:Hf.
  - rewrite (process_fetch_error P w Hf). cbn. repeat split; auto; lia.
  - destruct (process_fetched P w Hf) as [-> ->].
    destruct (FetchUnsent_sound_aux P w Hf) as (Hlen & Hrows).
    set (msgs := (value (FetchUnsent P 2 w)).1) in *.
    set (f := fun m : Message => sendMessage (unitEnv P (ID m)) m).
    split; [|split; [|split; [|split]]].
    + apply (forEach_invariant (fun w' => dom (db w') = dom (db w)));
        [|reflexivity].
      intros x _ w' Hw'. subst f. cbv beta. now rewrite unit_dom.
    + intros Hrow Hst.
      apply (forEach_invariant (fun w' => db w' !! id = Some row));
        [|exact Hrow].
      intros x Hx w' Hw'. subst f. cbv beta.
      rewrite unit_other_rows; [exact Hw'|].
      intros ->. destruct (Hrows x Hx) as (row' & Hrow' & Hp).
      rewrite Hrow in Hrow'. injection Hrow' as <-. contradiction.
    + intros Hv.
      apply (forEach_invariant (fun w' => validRows (db w'))); [|exact Hv].
      intros x _ w' Hw'. subst f. cbv beta. now apply unit_validRows.
    + match goal with
      | |- context [attemptsOf (?a :: ?b :: ?e)] =>
          change (attemptsOf (a :: b :: e)) with (attemptsOf e)
      end.
      pose proof (forEach_bounded attemptsOf 3 msgs f attemptsOf_app eq_refl
                    (fun x w' => unit_attempts_le _ x w') w) as Hb.
      lia.
    + match goal with
      | |- context [writesOf (?a :: ?b :: ?e)] =>
          change (writesOf (a :: b :: e)) with (writesOf e)
      end.
      pose proof (forEach_bounded writesOf 1 msgs f writesOf_app eq_refl
                    (fun x w' => unit_writes_le _ x w') w) as Hb.
      lia.
Qed.

Lemma pass_touches_only_pending_rows_witness :
  db (world (process (allAccepted 0) mixedRows)) !! 2 = Some (sentRow 20)
  /\ validRows (db (world (process (allAccepted 0) mixedRows))).
Proof.
  destruct (pass_touches_only_pending_rows (allAccepted 0) mixedRows 2
              (sentRow 20)) as (_ & H2 & H3 & _).
  split.
  - apply H2; [reflexivity | discriminate].
  - apply H3. apply map_Forall_to_list. vm_compute. repeat constructor.
Defined.

(** A pass over the mixed table: the pending row is sent, the others keep
    their status. *)
Example mixed_pass :
  (fun d => status <$> d) (db (world (process (allAccepted 0) mixedRows)))
  = {[ 1 := MessageStatusSent; 2 := MessageStatusSent;
       3 := MessageStatusFailed; 4 := MessageStatusSent;
       5 := MessageStatusSent ]}.
Proof. vm_compute. reflexivity. Qed.

(** ** The handlers of the control surface *)

(** X15.  The handlers of [/scheduler/start] and [/scheduler/stop] always
    answer 200 with status [success], never the error response: they do
    what [Start] and [Stop] do, and leave the scheduler running,
    respectively stopped. *)
Theorem scheduler_handlers_answer_200 (nowStr : string) (s : System) :
  (StartScheduler nowStr s).1
  = ReplyAction StatusOK
      {| SchedulerActionResponse.Status := "success";
         SchedulerActionResponse.Message := "Scheduler started successfully";
         SchedulerActionResponse.Time := nowStr |}
  /\ (StartScheduler nowStr s).2 = (Start s).2
  /\ IsRunning (StartScheduler nowStr s).2 = true
  /\ (StopScheduler nowStr s).1
     = ReplyAction StatusOK
         {| SchedulerActionResponse.Status := "success";
            SchedulerActionResponse.Message := "Scheduler stopped successfully";
            SchedulerActionResponse.Time := nowStr |}
  /\ (StopScheduler nowStr s).2 = (Stop s).2
  /\ IsRunning (StopScheduler nowStr s).2 = false.
Proof.
  unfold StartScheduler, StopScheduler, Start, Stop, IsRunning.
  destruct (isRunning s) eqn:H; cbn; rewrite ?H; repeat split.
Qed.

(** X16.  The health check answers 200 exactly when the ping of the
    database succeeds and 503 otherwise, whatever the scheduler does.  It
    always reports the three services: the database by the ping, the
    scheduler as running or stopped by [IsRunning], and Redis as healthy
    without asking it. *)
Theorem health_check_follows_the_ping (pingErr : error) (nowStr : string)
    (s : System) :
  exists h,
    HealthCheck pingErr nowStr s
    = ReplyHealth (match pingErr with
                   | Some _ => StatusServiceUnavailable
                   | None => StatusOK
                   end) h
    /\ HealthResponse.Status h
       = (match pingErr with
          | Some _ => "unhealthy"
          | None => "healthy"
          end)%string
    /\ HealthResponse.Timestamp h = nowStr
    /\ dom (HealthResponse.Services h)
       = {[ "database"%string; "scheduler"%string; "redis"%string ]}
    /\ HealthResponse.Services h !! "database"%string
       = Some (match pingErr with
               | Some e => "unhealthy: " +:+ e
               | None => "healthy"
               end)%string
    /\ HealthResponse.Services h !! "scheduler"%string
       = Some (if IsRunning s then "running" else "stopped")%string
    /\ HealthResponse.Services h !! "redis"%string = Some "healthy"%string.
Proof.
  unfold HealthCheck.
  destruct pingErr as [e|], (IsRunning s); cbn;
    (eexists; split; [reflexivity|]; cbn;
     repeat split; try reflexivity;
     rewrite !dom_insert_L, dom_empty_L; set_solver).
Qed.

(** ** The lists of sent and failed messages *)

#[local] Instance newerFirst_total : Total newerFirst.
Proof.
  intros x y. unfold newerFirst.
  destruct (sent_at x.2), (sent_at y.2); auto. lia.
Qed.

#[local] Instance newerFirst_trans : Transitive newerFirst.
Proof.
  intros x y z. unfold newerFirst.
  destruct (sent_at x.2), (sent_at y.2), (sent_at z.2); auto; try contradiction.
  lia.
Qed.

Lemma rowsByStatus_perm (st : string) (d : gmap Z Row) :
  rowsByStatus st d ≡ₚ List.filter (hasStatus st) (map_to_list d).
Proof. apply merge_sort_Permutation. Qed.

Lemma rowsByStatus_length (st : string) (d : gmap Z Row) :
  Z.of_nat (length (rowsByStatus st d)) = countStatus st d.
Proof. unfold countStatus. now rewrite (rowsByStatus_perm st d). Qed.

Lemma rowsByStatus_sorted (st : string) (d : gmap Z Row) :
  StronglySorted newerFirst (rowsByStatus st d).
Proof. apply (StronglySorted_merge_sort newerFirst). Qed.

Lemma rowsByStatus_In (st : string) (d : gmap Z Row) (k : Z) (row : Row) :
  (k, row) ∈ rowsByStatus st d -> d !! k = Some row /\ status row = st.
Proof.
  rewrite (rowsByStatus_perm st d). intros H.
  apply list_elem_of_In, filter_In in H as [Hd Hs].
  apply list_elem_of_In, elem_of_map_to_list in Hd.
  unfold hasStatus in Hs. cbn in Hs. apply String.eqb_eq in Hs. auto.
Qed.

Lemma rowsByStatus_NoDup (st : string) (d : gmap Z Row) :
  NoDup (rowsByStatus st d).*1.
Proof.
  rewrite (rowsByStatus_perm st d).
  eapply sublist_NoDup; [apply (NoDup_fst_map_to_list d)|].
  apply fmap_sublist, filter_sublist.
Qed.

Lemma StronglySorted_sublist {A} (R : relation A) (l1 l2 : list A) :
  l1 `sublist_of` l2 -> StronglySorted R l2 -> StronglySorted R l1.
Proof.
  induction 1 as [|x l1 l2 Hsub IH|x l1 l2 Hsub IH]; intros Hs.
  - constructor.
  - apply StronglySorted_inv in Hs as [Hs Hx]. constructor; [now apply IH|].
    rewrite Forall_forall in *. intros y Hy. apply Hx.
    eapply elem_of_sublist; eauto.
  - apply StronglySorted_inv in Hs as [Hs _]. now apply IH.
Qed.

Lemma page_sublist {A} (n o : nat) (l : list A) :
  take n (drop o l) `sublist_of` l.
Proof. transitivity (drop o l); [apply sublist_take | apply sublist_drop]. Qed.

Lemma StronglySorted_Forall2 {A B} (Q : A -> B -> Prop) (R : relation A)
    (R' : relation B) (l : list A) (k : list B) :
  (forall x x' y y', Q x y -> Q x' y' -> R x x' -> R' y y') ->
  Forall2 Q l k -> StronglySorted R l -> StronglySorted R' k.
Proof.
  intros HR. induction 1 as [|x y l k Hxy Hlk IH]; intros Hs; [constructor|].
  apply StronglySorted_inv in Hs as [Hs Hx]. constructor; [now apply IH|].
  clear IH Hs. induction Hlk as [|x' y' l k Hxy' _ IH]; [constructor|].
  apply Forall_cons in Hx as [Hx Hl]. constructor; eauto.
Qed.

Lemma scanned_ids (l : list (Z * Row)) (k : list Message) :
  Forall2 (fun x y => scanSentRow x = Some y) l k -> List.map ID k = l.*1.
Proof.
  induction 1 as [|x y l k Hxy _ IH]; [reflexivity|]. cbn. rewrite IH.
  unfold scanSentRow in Hxy. destruct (sent_at x.2); [|discriminate].
  now injection Hxy as <-.
Qed.

Lemma fetchPage_Some (st : string) (fails : bool) (limit offset : Z)
    (w : World) (msgs : list Message) :
  fetchPage st fails limit offset w = (msgs, None) ->
  fails = false /\ 0 <= limit /\ 0 <= offset
  /\ Forall2 (fun x y => scanSentRow x = Some y)
       (take (Z.to_nat limit) (drop (Z.to_nat offset) (rowsByStatus st (db w))))
       msgs.
Proof.
  unfold fetchPage. intros H.
  destruct fails; [discriminate|].
  destruct (Z.ltb_spec limit 0); [discriminate|].
  destruct (Z.ltb_spec offset 0); [discriminate|]. cbn [orb] in H.
  destruct (mapM _ _) as [k|] eqn:Hk; [|discriminate].
  injection H as <-. apply mapM_Some in Hk. auto.
Qed.

(** X17.  A page that [FetchSent] or [FetchFailed] returns without error was
    asked with a limit and an offset that are not negative; it holds the
    rows of that status from the offset on, as many as the limit allows,
    each once, by descending [sent_at], with the fields of the row. *)
Theorem fetched_page_is_a_sorted_slice (st : string) (fails : bool)
    (limit offset : Z) (w : World) (msgs : list Message) (m : Message) :
  fetchPage st fails limit offset w = (msgs, None) ->
  0 <= limit /\ 0 <= offset
  /\ Z.of_nat (length msgs)
     = Z.max 0 (Z.min limit (countStatus st (db w) - offset))
  /\ StronglySorted (fun a b => SentAt b <= SentAt a) msgs
  /\ NoDup (List.map ID msgs)
  /\ (In m msgs ->
      Status m = st
      /\ exists row,
           db w !! ID m = Some row /\ status row = st
           /\ sent_at row = Some (SentAt m)
           /\ phone_number row = PhoneNumber m /\ content row = Content m).
Proof.
  intros H. apply fetchPage_Some in H as (_ & Hl & Ho & Hscan).
  split; [exact Hl|]. split; [exact Ho|]. split; [|split; [|split]].
  - rewrite <- (Forall2_length _ _ _ Hscan), length_take, length_drop.
    pose proof (rowsByStatus_length st (db w)). lia.
  - eapply (StronglySorted_Forall2 _ newerFirst); [|exact Hscan|].
    + intros x x' y y' Hx Hx' HR. unfold scanSentRow in Hx, Hx'.
      unfold newerFirst in HR.
      destruct (sent_at x.2); [|discriminate].
      destruct (sent_at x'.2); [|discriminate].
      injection Hx as <-. injection Hx' as <-. exact HR.
    + eapply StronglySorted_sublist;
        [apply page_sublist | apply rowsByStatus_sorted].
  - rewrite (scanned_ids _ _ Hscan).
    eapply sublist_NoDup; [apply (rowsByStatus_NoDup st (db w))|].
    apply fmap_sublist, page_sublist.
  - intros Hin. apply list_elem_of_In in Hin.
    apply list_elem_of_lookup in Hin as [i Hi].
    destruct (Forall2_lookup_r _ _ _ i m Hscan Hi) as ([k row] & Hrow & Hsc).
    assert ((k, row) ∈ rowsByStatus st (db w)) as Hmem.
    { eapply elem_of_sublist; [|apply (page_sublist (Z.to_nat limit)
                                        (Z.to_nat offset))].
      apply list_elem_of_lookup. eauto. }
    apply rowsByStatus_In in Hmem as [Hd Hs].
    unfold scanSentRow in Hsc. cbn in Hsc.
    destruct (sent_at row) eqn:Ht; [|discriminate]. injection Hsc as <-.
    cbn. split; [exact Hs|]. exists row. rewrite Ht. auto.
Qed.

(** The second and third of the sent rows of the mixed table, newest
    first. *)
Example sent_page :
  (List.map (fun m => (ID m, SentAt m)) (FetchSent false 2 1 mixedRows).1,
   (FetchSent false 2 1 mixedRows).2)
  = ([(2, 20); (5, 10)], None).
Proof. vm_compute. reflexivity. Qed.

Lemma fetched_page_is_a_sorted_slice_witness :
  0 <= 2 /\ 0 <= 1
  /\ Z.of_nat (length (FetchSent false 2 1 mixedRows).1)
     = Z.max 0 (Z.min 2 (countStatus MessageStatusSent (db mixedRows) - 1))
  /\ StronglySorted (fun a b => SentAt b <= SentAt a)
       (FetchSent false 2 1 mixedRows).1
  /\ NoDup (List.map ID (FetchSent false 2 1 mixedRows).1)
  /\ (Status (default hello (head (FetchSent false 2 1 mixedRows).1))
      = MessageStatusSent
      /\ exists row,
           db mixedRows
             !! ID (default hello (head (FetchSent false 2 1 mixedRows).1))
           = Some row
           /\ status row = MessageStatusSent
           /\ sent_at row
              = Some (SentAt (default hello
                                (head (FetchSent false 2 1 mixedRows).1)))
           /\ phone_number row
              = PhoneNumber (default hello
                               (head (FetchSent false 2 1 mixedRows).1))
           /\ content row
              = Content (default hello
                           (head (FetchSent false 2 1 mixedRows).1))).
Proof.
  destruct (fetched_page_is_a_sorted_slice MessageStatusSent false 2 1
              mixedRows (FetchSent false 2 1 mixedRows).1
              (default hello (head (FetchSent false 2 1 mixedRows).1)))
    as (H1 & H2 & H3 & H4 & H5 & H6); [vm_compute; reflexivity|].
  repeat (split; [assumption|]). apply H6. vm_compute. auto.
Defined.




(** ** The pages the handlers answer *)

Lemma fetchPage_length (st : string) (fails : bool) (limit offset : Z)
    (w : World) (msgs : list Message) :
  fetchPage st fails limit offset w = (msgs, None) ->
  Z.of_nat (length msgs)
  = Z.max 0 (Z.min limit (countStatus st (db w) - offset)).
Proof.
  intros H. apply fetchPage_Some in H as (_ & Hl & Ho & Hscan).
  rewrite <- (Forall2_length _ _ _ Hscan), length_take, length_drop.
  pose proof (rowsByStatus_length st (db w)). lia.
Qed.

Lemma wrap64_overflow (z : Z) :
  2 ^ 63 <= z < 2 ^ 64 -> wrap64 z = z - 2 ^ 64.
Proof.
  intros H. unfold wrap64.
  replace (z + 2 ^ 63) with (z - 2 ^ 63 + 1 * 2 ^ 64) by lia.
  rewrite Z_mod_plus_full, Z.mod_small; lia.
Qed.

Lemma countStatus_nonneg (st : string) (d : gmap Z Row) : 0 <= countStatus st d.
Proof. unfold countStatus. lia. Qed.

Lemma listMessages_reply (Atoi : string -> option Z) (st : string)
    (fetchFails countFails : bool) (query : gmap string string) (w : World)
    (code : Z) (r : SentMessagesResponse.t) :
  listMessages Atoi (fun limit offset => fetchPage st fetchFails limit offset w)
    (countQuery countFails st w) query
  = ReplyMessages code r ->
  code = StatusOK /\ consistentPage st w r
  /\ (Pagination.Limit (SentMessagesResponse.Pagination r) < 2 ^ 63 ->
      Pagination.Offset (SentMessagesResponse.Pagination r) < 2 ^ 63 ->
      2 ^ 63 <= Pagination.Offset (SentMessagesResponse.Pagination r)
                + Pagination.Limit (SentMessagesResponse.Pagination r) ->
      Pagination.HasMore (SentMessagesResponse.Pagination r) = true).
Proof.
  unfold listMessages.
  set (limit := match Atoi (DefaultQuery query "limit" "10") with
                | Some n => if n <=? 0 then 10 else n
                | None => 10
                end).
  set (offset := match Atoi (DefaultQuery query "offset" "0") with
                 | Some n => if n <? 0 then 0 else n
                 | None => 0
                 end).
  assert (0 < limit) as Hlimit
    by (subst limit; destruct (Atoi (DefaultQuery query "limit" "10")) as [n|];
        [destruct (Z.leb_spec n 0)|]; lia).
  assert (0 <= offset) as Hoffset
    by (subst offset; destruct (Atoi (DefaultQuery query "offset" "0")) as [n|];
        [destruct (Z.ltb_spec n 0)|]; lia).
  destruct (fetchPage st fetchFails limit offset w) as [msgs [e|]] eqn:Hf;
    [discriminate|].
  unfold countQuery. destruct countFails; [discriminate|].
  intros H. injection H as <- <-.
  pose proof (fetchPage_length _ _ _ _ _ _ Hf) as Hlen.
  pose proof (countStatus_nonneg st (db w)) as Hcount.
  split; [reflexivity|]. unfold consistentPage.
  cbn -[wrap64 Z.pow Z.ltb].
  rewrite length_map. repeat split; try lia.
  - intros Hm. rewrite wrap64_small in Hm by lia. apply Z.ltb_lt in Hm. lia.
  - intros Hm. rewrite wrap64_small by lia. apply Z.ltb_lt. lia.
  - intros Hl Ho Hsum. rewrite wrap64_overflow by lia. apply Z.ltb_lt. lia.
Qed.



(** X20.  When [offset+limit] does not fit an [int] the sum wraps to a
    negative number, and the list is answered with [has_more] set, whatever
    the table holds. *)
Theorem has_more_wraps_around (Atoi : string -> option Z)
    (fetchFails countFails : bool) (query : gmap string string) (w : World)
    (code : Z) (r : SentMessagesResponse.t) :
  GetSentMessages Atoi fetchFails countFails query w = ReplyMessages code r
  \/ GetFailedMessages Atoi fetchFails countFails query w
     = ReplyMessages code r ->
  Pagination.Limit (SentMessagesResponse.Pagination r) < 2 ^ 63 ->
  Pagination.Offset (SentMessagesResponse.Pagination r) < 2 ^ 63 ->
  2 ^ 63 <= Pagination.Offset (SentMessagesResponse.Pagination r)
            + Pagination.Limit (SentMessagesResponse.Pagination r) ->
  Pagination.HasMore (SentMessagesResponse.Pagination r) = true.
Proof.
  intros [H|H]; apply listMessages_reply in H; tauto.
Qed.


(** Query strings that do not parse, or ask for nothing, fall back on the
    first ten rows. *)
Example default_page :
  (fun p => (Pagination.Limit p, Pagination.Offset p, Pagination.Count p,
             Pagination.Total p, Pagination.HasMore p))
    (SentMessagesResponse.Pagination
       (pageOf (GetSentMessages decimal false false
                  {[ "limit" := "-3"; "offset" := "abc" ]}%string mixedRows)))
  = (10, 0, 3, 3, false).
Proof. vm_compute. reflexivity. Qed.

Lemma hugePage_reply :
  GetSentMessages decimal false false hugePage emptyWorld
  = ReplyMessages StatusOK
      {| SentMessagesResponse.Data := [];
         SentMessagesResponse.Pagination :=
           {| Pagination.Limit := 9223372036854775807;
              Pagination.Offset := 1;
              Pagination.Count := 0; Pagination.Total := 0;
              Pagination.HasMore := true |} |}.
Proof.
  unfold GetSentMessages, listMessages.
  change (decimal (DefaultQuery hugePage "limit" "10"))
    with (Some 9223372036854775807).
  change (decimal (DefaultQuery hugePage "offset" "0")) with (Some 1).
  cbv iota beta.
  change (9223372036854775807 <=? 0) with false.
  change (1 <? 0) with false. cbv iota.
  unfold FetchSent, fetchPage.
  change (9223372036854775807 <? 0) with false.
  change (1 <? 0) with false. cbn [orb].
  change (rowsByStatus MessageStatusSent (db emptyWorld))
    with (@nil (Z * Row)).
  rewrite drop_nil, take_nil. reflexivity.
Qed.

Lemma has_more_wraps_around_witness :
  Pagination.HasMore
    (SentMessagesResponse.Pagination
       (pageOf (GetSentMessages decimal false false hugePage emptyWorld)))
  = true.
Proof.
  apply (has_more_wraps_around decimal false false hugePage emptyWorld
           StatusOK);
    rewrite hugePage_reply;
    [left; reflexivity | reflexivity | reflexivity | discriminate].
Defined.

(** An empty table, and still more to come. *)
Example empty_table_has_more :
  (fun p => (Pagination.Count p, Pagination.Total p, Pagination.HasMore p))
    (SentMessagesResponse.Pagination
       (pageOf (GetSentMessages decimal false false hugePage emptyWorld)))
  = (0, 0, true).
Proof. rewrite hugePage_reply. reflexivity. Qed.

(** ** The configuration *)

Lemma getEnv_optional (env : gmap string string) (key fallback : string) :
  getEnv env key false fallback = Ready (settingOr env key fallback).
Proof.
  unfold getEnv, settingOr. now destruct (String.eqb (Getenv env key) "").
Qed.

Lemma getEnv_required (env : gmap string string) (key fallback : string) :
  getEnv env key true fallback
  = if String.eqb (Getenv env key) "" then Panic (key +:+ " is required")
    else Ready (Getenv env key).
Proof.
  unfold getEnv. now destruct (String.eqb (Getenv env key) "").
Qed.

(** X21.  [Load] returns a configuration exactly when the interval parses
    and the six required variables are set and not empty; the configuration
    then holds their values, and for the three optional ones the value or
    the default ("2m", "5432", "8080") when unset or empty.  An interval
    that does not parse ends the start in [log.Fatalf] before any required
    variable is looked at; otherwise the first missing one, [DB_HOST]
    first, ends it in a panic. *)
Theorem Load_needs_every_required_variable
    (ParseDuration : string -> option Duration) (env : gmap string string)
    (cfg : Config) :
  (Load ParseDuration env = Ready cfg <->
   ParseDuration (settingOr env "SEND_INTERVAL" "2m") = Some (SendInterval cfg)
   /\ (Getenv env "DB_HOST" = DBHost cfg /\ DBHost cfg <> ""%string)
   /\ DBPort cfg = settingOr env "DB_PORT" "5432"
   /\ (Getenv env "DB_USER" = DBUser cfg /\ DBUser cfg <> ""%string)
   /\ (Getenv env "DB_PASSWORD" = DBPassword cfg
       /\ DBPassword cfg <> ""%string)
   /\ (Getenv env "DB_NAME" = DBName cfg /\ DBName cfg <> ""%string)
   /\ (Getenv env "REDIS_ADDR" = RedisHost cfg /\ RedisHost cfg <> ""%string)
   /\ (Getenv env "WEBHOOK_URL" = WebhookURL cfg
       /\ WebhookURL cfg <> ""%string)
   /\ ServerPort cfg = settingOr env "SERVER_PORT" "8080")
  /\ (ParseDuration (settingOr env "SEND_INTERVAL" "2m") = None ->
      Load ParseDuration env = Fatal "Invalid SEND_INTERVAL")
  /\ (ParseDuration (settingOr env "SEND_INTERVAL" "2m") <> None ->
      Getenv env "DB_HOST" = ""%string ->
      Load ParseDuration env = Panic "DB_HOST is required").
Proof.
  unfold Load. rewrite !getEnv_optional. cbn [andThen].
  destruct (ParseDuration (settingOr env "SEND_INTERVAL" "2m")) as [d|];
    [|split; [split; [discriminate | intros [H _]; discriminate H]
             |split; [reflexivity | congruence]]].
  rewrite !getEnv_required.
  split; [|split; [discriminate|]].
  - split.
    + intros H.
      repeat match goal with
             | H : context [String.eqb (Getenv env ?k) ""] |- _ =>
                 destruct (String.eqb_spec (Getenv env k) "");
                 cbn [andThen] in H; [discriminate H|]
             end.
      injection H as <-. cbn. auto 20.
    + intros (Hd & [H1 N1] & Hp & [H2 N2] & [H3 N3] & [H4 N4] & [H5 N5]
              & [H6 N6] & Hs).
      rewrite H1, H2, H3, H4, H5, H6.
      rewrite <- String.eqb_neq in N1, N2, N3, N4, N5, N6.
      rewrite N1, N2, N3, N4, N5, N6. cbn [andThen].
      destruct cfg. cbn in *. congruence.
  - intros _ ->. reflexivity.
Qed.

Lemma Load_needs_every_required_variable_witness :
  Load sampleParseDuration sampleEnv
  = Ready {| DBHost := "localhost"; DBPort := "5432"; DBUser := "insider";
             DBPassword := "secret"; DBName := "messages";
             RedisHost := "localhost:6379";
             WebhookURL := "https://webhook.site/test";
             SendInterval := 120 * Second; ServerPort := "8080" |}
  /\ Load sampleParseDuration (<["SEND_INTERVAL" := "soon"]> (delete "DB_HOST" sampleEnv))
     = Fatal "Invalid SEND_INTERVAL"
  /\ Load sampleParseDuration (delete "DB_HOST" sampleEnv)
     = Panic "DB_HOST is required".
Proof.
  split; [|split].
  - apply (Load_needs_every_required_variable sampleParseDuration sampleEnv).
    vm_compute. repeat split; discriminate.
  - apply (Load_needs_every_required_variable sampleParseDuration
             (<["SEND_INTERVAL" := "soon"]> (delete "DB_HOST" sampleEnv))
             {| DBHost := ""; DBPort := ""; DBUser := ""; DBPassword := "";
                DBName := ""; RedisHost := ""; WebhookURL := "";
                SendInterval := 0; ServerPort := "" |}).
    reflexivity.
  - apply (Load_needs_every_required_variable sampleParseDuration
             (delete "DB_HOST" sampleEnv)
             {| DBHost := ""; DBPort := ""; DBUser := ""; DBPassword := "";
                DBName := ""; RedisHost := ""; WebhookURL := "";
                SendInterval := 0; ServerPort := "" |});
      [discriminate | reflexivity].
Defined.

(** ** What a pass attempts *)

Lemma attemptIds_app (e1 e2 : list Event) :
  attemptIds (e1 ++ e2) = attemptIds e1 ++ attemptIds e2.
Proof. apply omap_app. Qed.

Lemma attempt_ids (E : Env) (m : Message) (body : string) (a : Z) (w : World) :
  attemptIds (events (sendMessageWithRetry E m body a w)) = [ID m].
Proof.
  unfold sendMessageWithRetry, bind, emit, log, ret, MarkAsSent, cacheSet,
    exec, events.
  destruct (roundTrip E a) as [| |code [|mid]]; try reflexivity;
    destruct (accepted code); try reflexivity.
  destruct (markSentFails E); cbn;
    destruct (String.eqb mid ""); cbn; try reflexivity;
    destruct (cacheSetFails E); reflexivity.
Qed.

Lemma givingUp_ids (E : Env) (m : Message) : attemptIds (givingUp E m) = [].
Proof. unfold givingUp. now destruct (markFailedFails E). Qed.

Lemma unit_ids (E : Env) (m : Message) (w : World) :
  Forall (fun id => id = ID m) (attemptIds (events (sendMessage E m w))).
Proof.
  fold (unitEvents E m w).
  unit_cases E m w;
    rewrite ?attemptIds_app, ?attempt_ids, ?givingUp_ids; cbn;
    repeat constructor.
Qed.

Lemma forEach_ids (l : list Message) (f : Message -> M unit) (w : World) :
  (forall x w', Forall (fun id => id = ID x) (attemptIds (events (f x w')))) ->
  Forall (fun id => In id (List.map ID l)) (attemptIds (events (forEach l f w))).
Proof.
  intros Hf. revert w. induction l as [|x l IH]; intros w; [constructor|].
  rewrite (proj2 (forEach_cons x l f w)), attemptIds_app.
  apply Forall_app. split.
  - eapply Forall_impl; [apply Hf|]. intros id ->. now left.
  - eapply Forall_impl; [apply IH|]. intros id Hid. now right.
Qed.

(** X22.  A pass attempts only messages that were pending when it fetched:
    no attempt is made for a row that is [sent] or [failed], so a message
    that has reached one of these is never delivered again, nor for an id
    the table does not hold.  A pass that finds no pending row queries, logs
    and changes nothing. *)
Theorem pass_attempts_only_pending (P : PassEnv) (w : World) (id : Z) :
  (In id (attemptIds (events (process P w))) ->
   exists row, db w !! id = Some row /\ status row = MessageStatusPending)
  /\ ((CountPending false w).1 = 0 -> fetchFails P = false ->
      process P w = (tt, w, [Query 2 true; Log (LogFetched 0)])).
Proof.
  split.
  - destruct (fetchFails P) eqn:Hf.
    + rewrite (process_fetch_error P w Hf). cbn. contradiction.
    + rewrite (proj2 (process_fetched P w Hf)).
      destruct (FetchUnsent_sound_aux P w Hf) as (_ & Hrows).
      match goal with
      | |- context [attemptIds (?a :: ?b :: ?e)] =>
          change (attemptIds (a :: b :: e)) with (attemptIds e)
      end.
      intros Hin.
      pose proof (forEach_ids (value (FetchUnsent P 2 w)).1
                    (fun m => sendMessage (unitEnv P (ID m)) m) w
                    (fun x w' => unit_ids _ x w')) as Hall.
      rewrite Forall_forall in Hall.
      apply list_elem_of_In, Hall, in_map_iff in Hin as (m & <- & Hm).
      now apply Hrows.
  - unfold CountPending, countQuery, countStatus. cbn [fst]. intros H0 Hf.
    unfold process, bind, FetchUnsent, log, emit. rewrite Hf.
    change isPending with (hasStatus MessageStatusPending).
    destruct (List.filter _ _) as [|kr l]; [reflexivity|].
    cbn [length] in H0. lia.
Qed.

Lemma pass_attempts_only_pending_witness :
  (exists row, db mixedRows !! 1 = Some row
               /\ status row = MessageStatusPending)
  /\ process (allAccepted 0) emptyWorld
     = (tt, emptyWorld, [Query 2 true; Log (LogFetched 0)]).
Proof.
  split.
  - apply (pass_attempts_only_pending (allAccepted 0) mixedRows 1).
    vm_compute. auto.
  - apply (pass_attempts_only_pending (allAccepted 0) emptyWorld 1);
      reflexivity.
Defined.

(** Two passes over the mixed table: the second finds nothing left. *)
Example second_pass_is_idle :
  attemptIds (events (process (allAccepted 1)
                        (world (process (allAccepted 0) mixedRows))))
  = [].
Proof. vm_compute. reflexivity. Qed.
